(** * Topology attributes of MDAnalysis: a shallow embedding

    Source: package/MDAnalysis/core/topologyattrs.py.

    The module defines a small class hierarchy.  [TopologyAttr] carries the
    level dispatch ([__getitem__], [__setitem__]) and six handlers that
    raise by default; [AtomAttr], [ResidueAttr] and [SegmentAttr] override
    the handlers that make sense at their level; [Masses], [Charges],
    [Resids] and [Bonds] (with [Angles], [Dihedrals], [Impropers]) refine
    them further.

    Python objects are mutable and handlers raise, so every handler is a
    computation in a state-and-exception monad over the attribute object
    and the translation table of its topology. *)

From Stdlib Require Import ZArith String Lia.
From Stdlib Require Import PrimFloat Uint63.
From stdpp Require Import base option list gmap strings sorting.

Local Open Scope string_scope.
Local Open Scope Z_scope.
#[local] Set Warnings "-clear-no-such-hyp".

(** ** Exceptions and results *)

(** The exceptions that the module raises itself ([NoDataError], imported
    from the package's [exceptions], and the built-in [NotImplementedError])
    and the ones that reach the caller from the subscripts, assignments and
    array constructions it evaluates. *)
Inductive exn : Set :=
| NoDataError
| NotImplementedError
| IndexError
| TypeError
| ValueError
| OverflowError.

Inductive result (A : Type) : Type :=
| Ok (a : A)
| Raise (e : exn).
Arguments Ok {A} a.
Arguments Raise {A} e.

Definition rbind {A B} (r : result A) (k : A -> result B) : result B :=
  match r with
  | Ok a => k a
  | Raise e => Raise e
  end.

Declare Scope res_scope.
Delimit Scope res_scope with res.
Notation "'let?' x ':=' r 'in' k" := (rbind r (fun x => k))
  (at level 10, x name, r at level 100, k at level 200) : res_scope.

(** Run [f] over a list, left to right, stopping at the first exception. *)
Fixpoint rmap {A B} (f : A -> result B) (l : list A) : result (list B) :=
  match l with
  | [] => Ok []
  | a :: l' =>
      (let? b := f a in let? bs := rmap f l' in Ok (b :: bs))%res
  end.

(** ** NumPy arrays and Python lists *)

(** An index [i] into an axis of length [n]: negative indices count from
    the end, anything outside [-n, n) is an [IndexError]. *)
Definition adjust_index (n : nat) (i : Z) : result nat :=
  if (0 <=? i) && (i <? Z.of_nat n) then Ok (Z.to_nat i)
  else if (- Z.of_nat n <=? i) && (i <? 0) then Ok (Z.to_nat (i + Z.of_nat n))
  else Raise IndexError.

Definition check_indices (n : nat) (ix : list Z) : result (list nat) :=
  rmap (adjust_index n) ix.

(** [a[ix]] for an index array [ix]: one element per index, in the order of
    [ix], repeated indices included. *)
Definition np_take {V} (a : list V) (ix : list Z) : result (list V) :=
  rmap (fun i =>
          let? k := adjust_index (length a) i in
          match a !! k with
          | Some x => Ok x
          | None => Raise IndexError
          end)%res ix.

(** Broadcasting of a one-dimensional right-hand side to [n] cells. *)
Definition broadcast {V} (n : nat) (v : list V) : result (list V) :=
  if decide (length v = n) then Ok v
  else match v with
       | [x] => Ok (replicate n x)
       | _ => Raise ValueError
       end.

Definition store_all {V} (a : list V) (kxs : list (nat * V)) : list V :=
  fold_left (fun acc kx => <[kx.1 := kx.2]> acc) kxs a.

(** An array has one dtype, and an assignment [a[ix] = v] converts every
    value of [v] to it: [np_cast a x] is what a cell of the array [a] holds
    after [x] was written to it, or the exception of the conversion.  A
    value is representable in the dtype when the conversion returns it
    unchanged. *)
Class Dtype (V : Type) : Type := {
  np_cast : list V -> V -> result V
}.

(** [a[ix] = v] for an index array [ix] and a list [v]: the values are
    first made into an array of the dtype of [a], then the shapes are
    matched and the indices checked, and only then are the cells written,
    in the order of [ix], so that a repeated index keeps the last value
    written to it. *)
Definition np_put {V} `{!Dtype V} (a : list V) (ix : list Z) (v : list V)
  : result (list V) :=
  (let? xs := rmap (np_cast a) v in
   let? vs := broadcast (length ix) xs in
   let? ks := check_indices (length a) ix in
   Ok (store_all a (zip ks vs)))%res.

(** The [values] of an attribute are handed over by the topology parser:
    a NumPy array for the per-entity attributes, a Python list of tuples for
    the connectivity attributes.  A Python list cannot be subscripted with an
    index array. *)
Inductive pyseq (V : Type) : Type :=
| NdArray (l : list V)
| PyList (l : list V).
Arguments NdArray {V} l.
Arguments PyList {V} l.

Definition items {V} (s : pyseq V) : list V :=
  match s with NdArray l | PyList l => l end.

(** [len(s)] *)
Definition seq_len {V} (s : pyseq V) : nat := length (items s).

(** [s[ix]] *)
Definition seq_getitem {V} (s : pyseq V) (ix : list Z) : result (list V) :=
  match s with
  | NdArray l => np_take l ix
  | PyList _ => Raise TypeError
  end.

(** [s[ix] = v] *)
Definition seq_setitem {V} `{!Dtype V} (s : pyseq V) (ix : list Z)
    (v : list V) : result (pyseq V) :=
  match s with
  | NdArray l => (let? l' := np_put l ix v in Ok (NdArray l'))%res
  | PyList _ => Raise TypeError
  end.

(** ** Scalars *)

(** What the handlers ask of the elements of [values]: comparison with
    [==] ([Resids.set_atoms]) and the reduction [ndarray.sum()], whose result
    is stored into a cell of the float64 array made by [np.empty]
    ([Masses], [Charges]) and which NumPy refuses for strings. *)
Class PyScalar (V : Type) : Type := {
  py_eqb : V -> V -> bool;
  np_sum : list V -> result float
}.

(** [np.empty(n)]: a float64 array of [n] cells with arbitrary content. *)
Class Uninitialised : Type := {
  np_empty : nat -> list float;
  np_empty_length : forall n, length (np_empty n) = n
}.

(** float64 values.  [ndarray.sum()] adds pairwise: a row of fewer than
    eight elements from left to right; a row of up to 128 elements with
    eight running sums, which take the elements in turn, are combined when
    fewer than eight elements are left, and are followed by the rest from
    left to right; a longer row by halves, the first one a multiple of
    eight.  The result is added to the zero that the reduction starts
    from. *)
Definition add_up (res : float) (l : list float) : float :=
  fold_left PrimFloat.add l res.

Definition combine8 (r : list float) : float :=
  match r with
  | [r0; r1; r2; r3; r4; r5; r6; r7] =>
      ((r0 + r1) + (r2 + r3)) + ((r4 + r5) + (r6 + r7))
  | _ => add_up neg_zero r
  end%float.

Fixpoint accumulate (k : nat) (r l : list float) : list float * list float :=
  match k with
  | O => (r, l)
  | S k' => accumulate k' (zip_with PrimFloat.add r (take 8 l)) (drop 8 l)
  end.

Definition block_sum (l : list float) : float :=
  let '(r, rest) := accumulate (length l / 8 - 1)%nat (take 8 l) (drop 8 l) in
  add_up (combine8 r) rest.

Fixpoint pairwise_sum (fuel : nat) (l : list float) : float :=
  let n := length l in
  if (n <? 8)%nat then add_up neg_zero l
  else if (n <=? 128)%nat then block_sum l
  else match fuel with
       | S fuel' =>
           let n2 := (n / 2 - (n / 2) mod 8)%nat in
           (pairwise_sum fuel' (take n2 l) + pairwise_sum fuel' (drop n2 l))%float
       | O => block_sum l
       end.

#[export] Instance float64_scalar : PyScalar float := {
  py_eqb := PrimFloat.eqb;
  np_sum := fun l => Ok (0 + pairwise_sum (length l) l)%float
}.

(** Any float is representable in a float64 array. *)
#[export] Instance float64_dtype : Dtype float := {
  np_cast := fun _ x => Ok x
}.

(** int64 values (ids, resids): the sum wraps around at 64 bits and is
    rounded to float64 when it is stored. *)
Definition wrap64 (z : Z) : Z := (z + 2 ^ 63) mod 2 ^ 64 - 2 ^ 63.

Definition float_of_Z (z : Z) : float :=
  match z with
  | Zneg p =>
      if Zpos p <? 2 ^ 63
      then PrimFloat.opp (PrimFloat.of_uint63 (Uint63.of_Z (Zpos p)))
      else (-9223372036854775808)%float
  | _ => PrimFloat.of_uint63 (Uint63.of_Z z)
  end.

#[export] Instance int_scalar : PyScalar Z := {
  py_eqb := Z.eqb;
  np_sum := fun l => Ok (float_of_Z (wrap64 (fold_left Z.add l 0)))
}.

(** A Python integer outside the 64 bits is refused by an int64 array. *)
Definition fits_int64 (z : Z) : bool := (- 2 ^ 63 <=? z) && (z <? 2 ^ 63).

#[export] Instance int64_dtype : Dtype Z := {
  np_cast := fun _ z => if fits_int64 z then Ok z else Raise OverflowError
}.

(** Strings (names, types). *)
#[export] Instance string_scalar : PyScalar string := {
  py_eqb := String.eqb;
  np_sum := fun _ => Raise TypeError
}.

(** An array of strings has a fixed width [w] (dtype [<Uw]), the length of
    the longest string it was made from; a longer string is cut to the
    width when it is written. *)
Definition unicode (w : nat) : Dtype string := {|
  np_cast := fun _ s => Ok (String.substring 0 w s)
|}.

(** The arrays of strings used below are made from strings of two
    characters. *)
#[export] Instance U2_dtype : Dtype string := unicode 2.

#[export] Instance zero_filled : Uninitialised := {
  np_empty := fun n => replicate n 0%float;
  np_empty_length := fun n => length_replicate n 0%float
}.

(** ** Groups and the translation table *)

(** Modelled from the spec: the groups ([AtomGroup], [ResidueGroup],
    [SegmentGroup]), which are defined elsewhere.  A group supplies its
    [level] tag and its index array [_ix]; the indices are zero-based and
    need be neither sorted nor unique. *)
Record group : Type := {
  level : string;
  _ix : list Z
}.

(** [len(g)]: the number of indices. *)
Definition group_len (g : group) : nat := length (_ix g).

(** The translation table [top.tt] is implemented elsewhere; the handlers use
    its conversions between levels and [move_atom], which rewrites the table
    in place. *)
Class TransTable (T : Type) : Type := {
  a2r : T -> list Z -> result (list Z);
  r2a_1d : T -> list Z -> result (list Z);
  r2a_2d : T -> list Z -> result (list (list Z));
  a2s : T -> list Z -> result (list Z);
  r2s : T -> list Z -> result (list Z);
  s2r_1d : T -> list Z -> result (list Z);
  s2a_1d : T -> list Z -> result (list Z);
  s2a_2d : T -> list Z -> result (list (list Z));
  move_atom : T -> list Z -> list Z -> result unit * T
}.

(** ** Attribute objects and handlers *)

(** A connectivity record: a tuple of atom indices. *)
Definition chain : Type := list Z.

(** A connectivity attribute whose [values] are an array has a
    two-dimensional int64 array, whose cells along the first axis are rows
    of one width.  A row of that width is stored as it is, a row of one
    element is repeated to the width, and no other row fits. *)
#[export] Instance rows_dtype : Dtype chain := {
  np_cast := fun a b =>
    if forallb fits_int64 b then
      match a with
      | [] => Ok b
      | r :: _ =>
          if decide (length b = length r) then Ok b
          else match b with
               | [x] => Ok (replicate (length r) x)
               | _ => Raise ValueError
               end
      end
    else Raise OverflowError
}.

(** The state a handler runs in: the attribute's [values], its [_cache]
    dictionary (only [Bonds.__init__] creates one) and the translation table
    [top.tt] of the topology it is attached to. *)
Record attr (V T : Type) : Type := {
  values : pyseq V;
  _cache : gmap string (gmap Z (list V));
  tt : T
}.
Arguments values {V T} a.
Arguments _cache {V T} a.
Arguments tt {V T} a.

Definition with_values {V T} (vs : pyseq V) (s : attr V T) : attr V T :=
  {| values := vs; _cache := _cache s; tt := tt s |}.
Definition with_cache {V T} (c : gmap string (gmap Z (list V))) (s : attr V T)
  : attr V T :=
  {| values := values s; _cache := c; tt := tt s |}.
Definition with_tt {V T} (t : T) (s : attr V T) : attr V T :=
  {| values := values s; _cache := _cache s; tt := t |}.

(** Computations that may raise and may change the state; the state at the
    point of the exception is kept. *)
Definition M (S A : Type) : Type := S -> result A * S.

Definition ret {S A} (a : A) : M S A := fun s => (Ok a, s).
Definition raise {S A} (e : exn) : M S A := fun s => (Raise e, s).
Definition bind {S A B} (c : M S A) (k : A -> M S B) : M S B :=
  fun s => match c s with
           | (Ok a, s') => k a s'
           | (Raise e, s') => (Raise e, s')
           end.
Definition lift {S A} (r : result A) : M S A := fun s => (r, s).
Definition get {S} : M S S := fun s => (Ok s, s).
Definition modify {S} (f : S -> S) : M S unit := fun s => (Ok (), f s).

Declare Scope m_scope.
Delimit Scope m_scope with M.
Notation "'let*' x ':=' c 'in' k" := (bind c (fun x => k))
  (at level 10, x name, c at level 100, k at level 200) : m_scope.
Notation "c ';;' k" := (bind c (fun _ => k))
  (at level 100, k at level 200, right associativity) : m_scope.

Fixpoint mapM {S A B} (f : A -> M S B) (l : list A) : M S (list B) :=
  match l with
  | [] => ret []
  | a :: l' => (let* b := f a in let* bs := mapM f l' in ret (b :: bs))%M
  end.

(** What a handler hands back: [None], an array of elements of [values], the
    float64 array of the aggregating reads, or the [TopologyGroup] that
    [Bonds.get_atoms] constructs from the sorted tuples and the kind label
    (the constructor, of [topologyobjects], also gets the universe of the
    group). *)
Inductive pyobj (V : Type) : Type :=
| PyNone
| PyArray (l : list V)
| PyFloat64Array (l : list float)
| TopologyGroup (idx : list V) (btype : string).
Arguments PyNone {V}.
Arguments PyArray {V} l.
Arguments PyFloat64Array {V} l.
Arguments TopologyGroup {V} idx btype.

(** The handlers an attribute object answers to, after inheritance. *)
Record vtable (V T : Type) : Type := {
  m_get_atoms : group -> M (attr V T) (pyobj V);
  m_set_atoms : group -> list V -> M (attr V T) (pyobj V);
  m_get_residues : group -> M (attr V T) (pyobj V);
  m_set_residues : group -> list V -> M (attr V T) (pyobj V);
  m_get_segments : group -> M (attr V T) (pyobj V);
  m_set_segments : group -> list V -> M (attr V T) (pyobj V);
  m_len : M (attr V T) nat
}.
Arguments m_get_atoms {V T} v.
Arguments m_set_atoms {V T} v.
Arguments m_get_residues {V T} v.
Arguments m_set_residues {V T} v.
Arguments m_get_segments {V T} v.
Arguments m_set_segments {V T} v.
Arguments m_len {V T} v.

(** ** The class hierarchy *)

Inductive klass : Set :=
| TopologyAttr
| AtomAttr | Atomids | Atomnames | Atomtypes | Masses | Charges
| ResidueAttr | Resids | Resnames
| SegmentAttr | Segids
| Bonds | Angles | Dihedrals | Impropers.

#[export] Instance klass_eq_dec : EqDecision klass.
Proof. solve_decision. Defined.

(** The base class named in each [class] statement ([object] is [None]). *)
Definition base (c : klass) : option klass :=
  match c with
  | TopologyAttr => None
  | AtomAttr | ResidueAttr | SegmentAttr => Some TopologyAttr
  | Atomids | Atomnames | Atomtypes | Masses | Charges | Bonds => Some AtomAttr
  | Resids | Resnames => Some ResidueAttr
  | Segids => Some SegmentAttr
  | Angles | Dihedrals | Impropers => Some Bonds
  end.

Definition attrname (c : klass) : string :=
  match c with
  | TopologyAttr => "topologyattrs"
  | AtomAttr => "atomattrs"
  | Atomids => "ids"
  | Atomnames => "names"
  | Atomtypes => "types"
  | Masses => "masses"
  | Charges => "charges"
  | ResidueAttr => "residueattrs"
  | Resids => "resids"
  | Resnames => "resnames"
  | SegmentAttr => "segmentattrs"
  | Segids => "segids"
  | Bonds => "bonds"
  | Angles => "angles"
  | Dihedrals => "dihedrals"
  | Impropers => "impropers"
  end.

Definition singular (c : klass) : string :=
  match c with
  | TopologyAttr => "topologyattr"
  | AtomAttr => "atomattr"
  | Atomids => "id"
  | Atomnames => "name"
  | Atomtypes => "type"
  | Masses => "mass"
  | Charges => "charge"
  | ResidueAttr => "residueattr"
  | Resids => "resid"
  | Resnames => "resname"
  | SegmentAttr => "segmentattr"
  | Segids => "segid"
  | Bonds => "bonds"
  | Angles => "angles"
  | Dihedrals => "dihedrals"
  | Impropers => "impropers"
  end.

Inductive lvl : Set := Atom | Residue | Segment.

(** The methods a class body can define. *)
Inductive slot : Set :=
| Getter (l : lvl)
| Setter (l : lvl)
| Length.

(** [defines c m]: the body of class [c] contains a [def] for [m]. *)
Definition defines (c : klass) (m : slot) : bool :=
  match c, m with
  | TopologyAttr, _ => true
  | AtomAttr, (Getter _ | Setter Atom) => true
  | (Masses | Charges), (Getter Residue | Getter Segment) => true
  | ResidueAttr, (Getter _ | Setter Residue) => true
  | Resids, Setter Atom => true
  | SegmentAttr, (Getter _ | Setter Segment) => true
  | Bonds, (Length | Getter Atom) => true
  | _, _ => false
  end.

Fixpoint ancestors (fuel : nat) (c : klass) : list klass :=
  c :: match fuel, base c with
       | S fuel', Some p => ancestors fuel' p
       | _, _ => []
       end.

(** Method resolution order: the class, then its bases up to the root. *)
Definition mro (c : klass) : list klass := ancestors 16 c.

(** The class whose [def] answers a call of [m] on an instance of [c]. *)
Definition resolve (c : klass) (m : slot) : option klass :=
  head (filter (fun k => defines k m = true) (mro c)).

Definition is_connectivity (c : klass) : bool :=
  match c with
  | Bonds | Angles | Dihedrals | Impropers => true
  | _ => false
  end.

(** ** The classes *)

Module TopologyAttr.
Section Defs.
Context {V T : Type}.
#[local] Abbreviation handler := (M (attr V T) (pyobj V)).

Definition __init__ (vals : pyseq V) (top_tt : T) : attr V T :=
    {| values := vals; _cache := ∅; tt := top_tt |}.

Definition __len__ : M (attr V T) nat :=
    (let* self := get in ret (seq_len (values self)))%M.

Definition __getitem__ (self : vtable V T) (g : group) : handler :=
    if String.eqb (level g) "atom" then m_get_atoms self g
    else if String.eqb (level g) "residue" then m_get_residues self g
    else if String.eqb (level g) "segment" then m_get_segments self g
    else ret PyNone.

Definition __setitem__ (self : vtable V T) (g : group) (vals : list V)
    : handler :=
    if String.eqb (level g) "atom" then m_set_atoms self g vals
    else if String.eqb (level g) "residue" then m_set_residues self g vals
    else if String.eqb (level g) "segment" then m_set_segments self g vals
    else ret PyNone.

Definition get_atoms (ag : group) : handler := raise NoDataError.
Definition set_atoms (ag : group) (vals : list V) : handler :=
    raise NotImplementedError.
Definition get_residues (rg : group) : handler := raise NoDataError.
Definition set_residues (rg : group) (vals : list V) : handler :=
    raise NotImplementedError.
Definition get_segments (sg : group) : handler := raise NoDataError.
Definition set_segments (sg : group) (vals : list V) : handler :=
    raise NotImplementedError.

Definition methods : vtable V T :=
    {| m_get_atoms := get_atoms;
       m_set_atoms := set_atoms;
       m_get_residues := get_residues;
       m_set_residues := set_residues;
       m_get_segments := get_segments;
       m_set_segments := set_segments;
       m_len := __len__ |}.
End Defs.
End TopologyAttr.

Module AtomAttr.
Section Defs.
Context {V T : Type} `{!Dtype V} `{!TransTable T}.
#[local] Abbreviation handler := (M (attr V T) (pyobj V)).

Definition get_atoms (ag : group) : handler :=
    (let* self := get in
     let* r := lift (seq_getitem (values self) (_ix ag)) in
     ret (PyArray r))%M.

Definition set_atoms (ag : group) (vals : list V) : handler :=
    (let* self := get in
     let* vs := lift (seq_setitem (values self) (_ix ag) vals) in
     modify (with_values vs) ;;
     ret PyNone)%M.

Definition get_residues (rg : group) : handler :=
    (let* self := get in
     let* aix := lift (r2a_1d (tt self) (_ix rg)) in
     let* r := lift (seq_getitem (values self) aix) in
     ret (PyArray r))%M.

Definition get_segments (sg : group) : handler :=
    (let* self := get in
     let* aix := lift (s2a_1d (tt self) (_ix sg)) in
     let* r := lift (seq_getitem (values self) aix) in
     ret (PyArray r))%M.

  (** [class AtomAttr(TopologyAttr)] *)
Definition methods : vtable V T :=
    {| m_get_atoms := get_atoms;
       m_set_atoms := set_atoms;
       m_get_residues := get_residues;
       m_set_residues := m_set_residues TopologyAttr.methods;
       m_get_segments := get_segments;
       m_set_segments := m_set_segments TopologyAttr.methods;
       m_len := m_len TopologyAttr.methods |}.
End Defs.
End AtomAttr.

(** The loop shared by the four aggregating handlers:
    [for i, row in enumerate(rows): out[i] = self.values[row].sum()]. *)
Definition store_cell {A} (out : list A) (i : nat) (x : A) : result (list A) :=
  if decide (i < length out)%nat then Ok (<[i := x]> out) else Raise IndexError.

Fixpoint sum_rows {V} `{!PyScalar V} (vals : pyseq V) (i : nat)
    (rows : list (list Z)) (out : list float) : result (list float) :=
  match rows with
  | [] => Ok out
  | row :: rest =>
      (let? picked := seq_getitem vals row in
       let? total := np_sum picked in
       let? out' := store_cell out i total in
       sum_rows vals (S i) rest out')%res
  end.

Module Masses.
Section Defs.
Context {V T : Type} `{!PyScalar V} `{!Dtype V} `{!Uninitialised}
  `{!TransTable T}.
#[local] Abbreviation handler := (M (attr V T) (pyobj V)).

Definition get_residues (rg : group) : handler :=
  (let* self := get in
   let masses := np_empty (group_len rg) in
   let* resatoms := lift (r2a_2d (tt self) (_ix rg)) in
   let* masses := lift (sum_rows (values self) 0 resatoms masses) in
   ret (PyFloat64Array masses))%M.

Definition get_segments (sg : group) : handler :=
  (let* self := get in
   let masses := np_empty (group_len sg) in
   let* segatoms := lift (s2a_2d (tt self) (_ix sg)) in
   let* masses := lift (sum_rows (values self) 0 segatoms masses) in
   ret (PyFloat64Array masses))%M.

(** [class Masses(AtomAttr)] *)
Definition methods : vtable V T :=
  {| m_get_atoms := m_get_atoms AtomAttr.methods;
     m_set_atoms := m_set_atoms AtomAttr.methods;
     m_get_residues := get_residues;
     m_set_residues := m_set_residues AtomAttr.methods;
     m_get_segments := get_segments;
     m_set_segments := m_set_segments AtomAttr.methods;
     m_len := m_len AtomAttr.methods |}.
End Defs.
End Masses.

Module Charges.
Section Defs.
Context {V T : Type} `{!PyScalar V} `{!Dtype V} `{!Uninitialised}
  `{!TransTable T}.
#[local] Abbreviation handler := (M (attr V T) (pyobj V)).

Definition get_residues (rg : group) : handler :=
  (let* self := get in
   let charges := np_empty (group_len rg) in
   let* resatoms := lift (r2a_2d (tt self) (_ix rg)) in
   let* charges := lift (sum_rows (values self) 0 resatoms charges) in
   ret (PyFloat64Array charges))%M.

Definition get_segments (sg : group) : handler :=
  (let* self := get in
   let charges := np_empty (group_len sg) in
   let* segatoms := lift (s2a_2d (tt self) (_ix sg)) in
   let* charges := lift (sum_rows (values self) 0 segatoms charges) in
   ret (PyFloat64Array charges))%M.

(** [class Charges(AtomAttr)] *)
Definition methods : vtable V T :=
  {| m_get_atoms := m_get_atoms AtomAttr.methods;
     m_set_atoms := m_set_atoms AtomAttr.methods;
     m_get_residues := get_residues;
     m_set_residues := m_set_residues AtomAttr.methods;
     m_get_segments := get_segments;
     m_set_segments := m_set_segments AtomAttr.methods;
     m_len := m_len AtomAttr.methods |}.
End Defs.
End Charges.

Module ResidueAttr.
Section Defs.
Context {V T : Type} `{!Dtype V} `{!TransTable T}.
#[local] Abbreviation handler := (M (attr V T) (pyobj V)).

Definition get_atoms (ag : group) : handler :=
  (let* self := get in
   let* rix := lift (a2r (tt self) (_ix ag)) in
   let* r := lift (seq_getitem (values self) rix) in
   ret (PyArray r))%M.

Definition get_residues (rg : group) : handler :=
  (let* self := get in
   let* r := lift (seq_getitem (values self) (_ix rg)) in
   ret (PyArray r))%M.

Definition set_residues (rg : group) (vals : list V) : handler :=
  (let* self := get in
   let* vs := lift (seq_setitem (values self) (_ix rg) vals) in
   modify (with_values vs) ;;
   ret PyNone)%M.

Definition get_segments (sg : group) : handler :=
  (let* self := get in
   let* rix := lift (s2r_1d (tt self) (_ix sg)) in
   let* r := lift (seq_getitem (values self) rix) in
   ret (PyArray r))%M.

(** [class ResidueAttr(TopologyAttr)] *)
Definition methods : vtable V T :=
  {| m_get_atoms := get_atoms;
     m_set_atoms := m_set_atoms TopologyAttr.methods;
     m_get_residues := get_residues;
     m_set_residues := set_residues;
     m_get_segments := get_segments;
     m_set_segments := m_set_segments TopologyAttr.methods;
     m_len := m_len TopologyAttr.methods |}.
End Defs.
End ResidueAttr.

(** A cell of an int32 array keeps the low 32 bits, read as two's
    complement. *)
Definition to_int32 (z : Z) : Z := (z + 2 ^ 31) mod 2 ^ 32 - 2 ^ 31.

(** Position of the first element of [l] that [==] [item], counting from
    [k]. *)
Fixpoint first_match {V} `{!PyScalar V} (l : list V) (item : V) (k : Z)
  : option Z :=
  match l with
  | [] => None
  | x :: l' => if py_eqb x item then Some k else first_match l' item (k + 1)
  end.

(** [np.where(vals == item)[0][0]].  A Python list compared with a scalar is
    plainly [False], and so has no first hit. *)
Definition where_first {V} `{!PyScalar V} (vals : pyseq V) (item : V)
  : result Z :=
  match vals with
  | NdArray l =>
      match first_match l item 0 with
      | Some k => Ok k
      | None => Raise IndexError
      end
  | PyList _ => Raise IndexError
  end.

Module Resids.
Section Defs.
Context {V T : Type} `{!PyScalar V} `{!Dtype V} `{!TransTable T}.
#[local] Abbreviation handler := (M (attr V T) (pyobj V)).

(** The [for] loop of [set_atoms]; the [try] covers both the search and the
    store into [rix[i]]. *)
Fixpoint resindexes (vals : pyseq V) (i : nat) (resids : list V)
    (rix : list Z) : result (list Z) :=
  match resids with
  | [] => Ok rix
  | item :: rest =>
      match (let? k := where_first vals item in
             store_cell rix i (to_int32 k))%res with
      | Ok rix' => resindexes vals (S i) rest rix'
      | Raise IndexError => Raise NoDataError
      | Raise e => Raise e
      end
  end.

Definition set_atoms (ag : group) (resids : list V) : handler :=
  (let* self := get in
   let rix := replicate (group_len ag) 0 in
   let* rix := lift (resindexes (values self) 0 resids rix) in
   fun self =>
     let (r, tt') := move_atom (tt self) (_ix ag) rix in
     (rbind r (fun _ => Ok PyNone), with_tt tt' self))%M.

(** [class Resids(ResidueAttr)] *)
Definition methods : vtable V T :=
  {| m_get_atoms := m_get_atoms ResidueAttr.methods;
     m_set_atoms := set_atoms;
     m_get_residues := m_get_residues ResidueAttr.methods;
     m_set_residues := m_set_residues ResidueAttr.methods;
     m_get_segments := m_get_segments ResidueAttr.methods;
     m_set_segments := m_set_segments ResidueAttr.methods;
     m_len := m_len ResidueAttr.methods |}.
End Defs.
End Resids.

Module SegmentAttr.
Section Defs.
Context {V T : Type} `{!Dtype V} `{!TransTable T}.
#[local] Abbreviation handler := (M (attr V T) (pyobj V)).

Definition get_atoms (ag : group) : handler :=
  (let* self := get in
   let* six := lift (a2s (tt self) (_ix ag)) in
   let* r := lift (seq_getitem (values self) six) in
   ret (PyArray r))%M.

Definition get_residues (rg : group) : handler :=
  (let* self := get in
   let* six := lift (r2s (tt self) (_ix rg)) in
   let* r := lift (seq_getitem (values self) six) in
   ret (PyArray r))%M.

Definition get_segments (sg : group) : handler :=
  (let* self := get in
   let* r := lift (seq_getitem (values self) (_ix sg)) in
   ret (PyArray r))%M.

Definition set_segments (sg : group) (vals : list V) : handler :=
  (let* self := get in
   let* vs := lift (seq_setitem (values self) (_ix sg) vals) in
   modify (with_values vs) ;;
   ret PyNone)%M.

(** [class SegmentAttr(TopologyAttr)] *)
Definition methods : vtable V T :=
  {| m_get_atoms := get_atoms;
     m_set_atoms := m_set_atoms TopologyAttr.methods;
     m_get_residues := get_residues;
     m_set_residues := m_set_residues TopologyAttr.methods;
     m_get_segments := get_segments;
     m_set_segments := set_segments;
     m_len := m_len TopologyAttr.methods |}.
End Defs.
End SegmentAttr.

(** ** Connectivity *)

(** Modelled from the spec: the generic caching utility [cached] of
    [lib.util], which is not part of this file.  The decorated method is run
    on first access only; its result is kept in [self._cache] under [key]
    and the very same object is handed out on every later access. *)
Definition cached {V T} (key : string)
    (func : M (attr V T) (gmap Z (list V))) : M (attr V T) (gmap Z (list V)) :=
  fun self =>
    match _cache self !! key with
    | Some d => (Ok d, self)
    | None =>
        match func self with
        | (Ok d, self') =>
            (Ok d, with_cache (<[key := d]> (_cache self')) self')
        | (Raise e, self') => (Raise e, self')
        end
    end.

(** [b[i]] on a tuple. *)
Definition tuple_getitem (b : chain) (i : Z) : result Z :=
  (let? k := adjust_index (length b) i in
   match b !! k with
   | Some a => Ok a
   | None => Raise IndexError
   end)%res.

(** [if b[0] < b[-1]: b = b[::-1]] *)
Definition orient (b : chain) : result chain :=
  (let? first := tuple_getitem b 0 in
   let? last := tuple_getitem b (-1) in
   Ok (if first <? last then reverse b else b))%res.

(** [bd[a].append(b)] on a [defaultdict(list)] *)
Definition append_to (bd : gmap Z (list chain)) (a : Z) (b : chain)
  : gmap Z (list chain) :=
  <[a := (default [] (bd !! a) ++ [b])%list]> bd.

(** [for a in b: bd[a].append(b)] *)
Definition register (bd : gmap Z (list chain)) (b : chain)
  : gmap Z (list chain) :=
  fold_left (fun bd a => append_to bd a b) b bd.

(** [for b in self.values: ...] *)
Fixpoint build (vals : list chain) (bd : gmap Z (list chain))
  : result (gmap Z (list chain)) :=
  match vals with
  | [] => Ok bd
  | b :: rest => (let? b' := orient b in build rest (register bd b'))%res
  end.

(** Tuples compare lexicographically. *)
Fixpoint chain_leb (x y : chain) : bool :=
  match x, y with
  | [], _ => true
  | _ :: _, [] => false
  | a :: x', b :: y' =>
      if a <? b then true else if b <? a then false else chain_leb x' y'
  end.

Definition chain_le (x y : chain) : Prop := chain_leb x y = true.

#[export] Instance chain_le_dec x y : Decision (chain_le x y).
Proof. unfold chain_le. apply _. Defined.

(** [np.array(tuples)]: tuples of one length make a two-dimensional array,
    tuples of different lengths are refused (since NumPy 1.24; before that
    they made an array of objects). *)
Definition np_array (tuples : list chain) : result (list chain) :=
  match tuples with
  | [] => Ok []
  | b :: rest =>
      if forallb (fun b' => bool_decide (length b' = length b)) rest
      then Ok tuples
      else Raise ValueError
  end.

(** [s[:-1]] on a string. *)
Fixpoint drop_last (s : string) : string :=
  match s with
  | EmptyString => EmptyString
  | String c EmptyString => EmptyString
  | String c s' => String c (drop_last s')
  end.

Module Bonds.
Section Defs.
Context {T : Type} `{!TransTable T}.
#[local] Abbreviation handler := (M (attr chain T) (pyobj chain)).

Definition __init__ (vals : pyseq chain) (top_tt : T) : attr chain T :=
  {| values := vals; _cache := ∅; tt := top_tt |}.

(** The property [_bondDict], decorated with [cached('bd')].  The map is
    held by value here.  When [values] is an array, the tuples of the real
    map are views of its rows, and a later write to [values] shows in the
    entries of the map, though not in its keys; no statement below relies on
    the entries of the map after a write to an array. *)
Definition _bondDict : M (attr chain T) (gmap Z (list chain)) :=
  cached "bd" (fun self => (build (items (values self)) ∅, self)).

Definition __len__ : M (attr chain T) nat :=
  (let* bd := _bondDict in ret (size bd))%M.

(** [self._bondDict[a]]: the dictionary is a [defaultdict(list)], and it is
    the object held in the cache, so asking for a missing key stores an
    empty list under it there. *)
Definition _bondDict_getitem (a : Z) : M (attr chain T) (list chain) :=
  (let* bd := _bondDict in
   match bd !! a with
   | Some bonds => ret bonds
   | None =>
       modify (fun self =>
                 with_cache (<["bd" := <[a := []]> bd]> (_cache self)) self) ;;
       ret []
   end)%M.

(** [singular] is the class attribute of the receiver.  Building the [set]
    hashes every record found: tuples hash, rows of an array do not. *)
Definition get_atoms (singular : string) (ag : group) : handler :=
  (let* found := mapM _bondDict_getitem (_ix ag) in
   let* self := get in
   match values self, concat found with
   | NdArray _, _ :: _ => raise TypeError
   | _, all =>
       let unique_bonds := remove_dups all in
       let* bond_idx := lift (np_array (merge_sort chain_le unique_bonds)) in
       ret (TopologyGroup bond_idx (drop_last singular))
   end)%M.

(** [class Bonds(AtomAttr)] *)
Definition methods (singular : string) : vtable chain T :=
  {| m_get_atoms := get_atoms singular;
     m_set_atoms := m_set_atoms AtomAttr.methods;
     m_get_residues := m_get_residues AtomAttr.methods;
     m_set_residues := m_set_residues AtomAttr.methods;
     m_get_segments := m_get_segments AtomAttr.methods;
     m_set_segments := m_set_segments AtomAttr.methods;
     m_len := __len__ |}.
End Defs.
End Bonds.

(** ** Instances of the classes *)

(** The element type of [values]: tuples of atom indices for the
    connectivity classes, scalars for the others. *)
Definition elem (V : Type) (c : klass) : Type :=
  if is_connectivity c then chain else V.

Section Objects.
Context {V T : Type} `{!PyScalar V} `{!Dtype V} `{!Uninitialised}
  `{!TransTable T}.

(** The handlers of an instance of class [c].  A class with an empty body
    answers with the handlers of its base. *)
Definition vtable_of (c : klass) : vtable (elem V c) T :=
  match c return vtable (elem V c) T with
  | TopologyAttr => TopologyAttr.methods
  | AtomAttr => AtomAttr.methods
  | Atomids => AtomAttr.methods
  | Atomnames => AtomAttr.methods
  | Atomtypes => AtomAttr.methods
  | Masses => Masses.methods
  | Charges => Charges.methods
  | ResidueAttr => ResidueAttr.methods
  | Resids => Resids.methods
  | Resnames => ResidueAttr.methods
  | SegmentAttr => SegmentAttr.methods
  | Segids => SegmentAttr.methods
  | Bonds => Bonds.methods (singular Bonds)
  | Angles => Bonds.methods (singular Angles)
  | Dihedrals => Bonds.methods (singular Dihedrals)
  | Impropers => Bonds.methods (singular Impropers)
  end.

(** The handler stored in a table for a level. *)
Definition getter {X} (vt : vtable X T) (l : lvl)
  : group -> M (attr X T) (pyobj X) :=
  match l with
  | Atom => m_get_atoms vt
  | Residue => m_get_residues vt
  | Segment => m_get_segments vt
  end.

Definition setter {X} (vt : vtable X T) (l : lvl)
  : group -> list X -> M (attr X T) (pyobj X) :=
  match l with
  | Atom => m_set_atoms vt
  | Residue => m_set_residues vt
  | Segment => m_set_segments vt
  end.

End Objects.

(** The dtype of the values of an instance of class [c]. *)
#[export] Instance elem_dtype {V} `{!Dtype V} (c : klass)
  : Dtype (elem V c) | 100 :=
  match is_connectivity c as b return Dtype (if b then chain else V) with
  | true => rows_dtype
  | false => _
  end.

(** ** A translation table *)

(** Modelled from the spec: the translation table [top.tt], which is not
    part of this file.  It holds the residue index of every atom ([AR]) and
    the segment index of every residue ([RS]).  Converting towards the
    coarser level indexes these arrays; converting towards the finer level
    lists, per residue or segment and in increasing order, the atoms or
    residues that belong to it, either as one row each ([_2d]) or flattened
    ([_1d]); [move_atom] assigns new residue indices to atoms, all or
    nothing. *)
Record table : Type := {
  AR : list Z;
  RS : list Z
}.

Fixpoint positions (l : list Z) (x : Z) (k : Z) : list Z :=
  match l with
  | [] => []
  | y :: l' =>
      if y =? x then k :: positions l' x (k + 1) else positions l' x (k + 1)
  end.

Definition atoms_of_residue (t : table) (r : Z) : list Z :=
  positions (AR t) r 0.

Definition residues_of_segment (t : table) (s : Z) : list Z :=
  positions (RS t) s 0.

Definition atoms_of_segment (t : table) (s : Z) : list Z :=
  concat (atoms_of_residue t <$> residues_of_segment t s).

#[export] Instance table_ops : TransTable table := {
  a2r := fun t aix => np_take (AR t) aix;
  r2a_1d := fun t rix => Ok (concat (atoms_of_residue t <$> rix));
  r2a_2d := fun t rix => Ok (atoms_of_residue t <$> rix);
  a2s := fun t aix =>
    (let? rix := np_take (AR t) aix in np_take (RS t) rix)%res;
  r2s := fun t rix => np_take (RS t) rix;
  s2r_1d := fun t six => Ok (concat (residues_of_segment t <$> six));
  s2a_1d := fun t six => Ok (concat (atoms_of_segment t <$> six));
  s2a_2d := fun t six => Ok (atoms_of_segment t <$> six);
  move_atom := fun t aix rix =>
    match np_put (AR t) aix rix with
    | Ok ar => (Ok (), {| AR := ar; RS := RS t |})
    | Raise e => (Raise e, t)
    end
}.

(** ** Concrete topologies *)

(** Four atoms in two residues of one segment: a water-like molecule (atoms
    0 to 2) and a single ion (atom 3). *)
Definition water_ion : table := {| AR := [0; 0; 0; 1]; RS := [0; 0] |}.

(** Three residues with resids 10, 20 and 30, one atom each. *)
Definition three_residues : table := {| AR := [0; 1; 2]; RS := [0; 0; 0] |}.

Definition resids_10_20_30 : attr Z table :=
  TopologyAttr.__init__ (NdArray [10; 20; 30]) three_residues.

Definition masses_water_ion : attr float table :=
  TopologyAttr.__init__
    (NdArray [1%float; 1%float; 16%float; 1%float]) water_ion.

Definition names_water_ion : attr string table :=
  TopologyAttr.__init__ (NdArray ["H1"; "H2"; "OW"; "NA"]) water_ion.

(** Three bonds among the atoms of [water_ion], as the docstring of
    [Bonds.__init__] asks for them (a list of tuples) and as an array of
    rows. *)
Definition bonds_list : attr chain table :=
  Bonds.__init__ (PyList [[0; 2]; [1; 2]; [2; 3]]) water_ion.

Definition bonds_array : attr chain table :=
  Bonds.__init__ (NdArray [[0; 2]; [1; 2]; [2; 3]]) water_ion.

Definition one_bond : attr chain table :=
  Bonds.__init__ (PyList [[0; 1]]) water_ion.

Definition group_of (l : string) (ix : list Z) : group :=
  {| level := l; _ix := ix |}.

(** ** Vocabulary of the statements *)

(** The atom-level attributes that hold one scalar per atom. *)
Definition atom_scalar (c : klass) : Prop :=
  c = AtomAttr \/ c = Atomids \/ c = Atomnames \/ c = Atomtypes \/
  c = Masses \/ c = Charges.

(** [k] is the lowest index of a residue whose stored resid [==] [item]. *)
Definition lowest_match {V} `{!PyScalar V} (l : list V) (item : V) (k : Z)
  : Prop :=
  0 <= k /\
  (exists x, l !! Z.to_nat k = Some x /\ py_eqb x item = true) /\
  (forall j x, (j < Z.to_nat k)%nat -> l !! j = Some x ->
               py_eqb x item = false).

Definition has_match {V} `{!PyScalar V} (l : list V) (item : V) : Prop :=
  exists x, x ∈ l /\ py_eqb x item = true.

Definition no_match {V} `{!PyScalar V} (l : list V) (item : V) : Prop :=
  forall x, x ∈ l -> py_eqb x item = false.

(** What [Resids.set_atoms] does once the residue indices [rix] are known:
    one call of [move_atom]. *)
Definition move_atom_once {V T} `{!TransTable T} (ag : group) (rix : list Z)
  : M (attr V T) (pyobj V) :=
  fun self =>
    let (r, tt') := move_atom (tt self) (_ix ag) rix in
    (rbind r (fun _ => Ok PyNone), with_tt tt' self).

(** Every index of [ix] is valid for an axis of length [n]. *)
(** Values that an array [a] stores as they are. *)
Definition representable {V} `{!Dtype V} (a : list V) (v : list V) : Prop :=
  Forall (fun x => np_cast a x = Ok x) v.

(** The values of the atoms [row], read off the array [a] one by one: atom
    [j] has the [j]-th value, counted from the end when [j] is negative. *)
Definition atom_values {V} (a : list V) (row : list Z) (vs : list V) : Prop :=
  Forall2 (fun j x => a !! Z.to_nat (j `mod` Z.of_nat (length a)) = Some x)
    row vs.

(** [s] is a float64 sum of the values [l]: every value enters once, the
    additions are float64 additions in some order and grouping, and a
    partial sum may start from a zero. *)
Inductive float_sum : list float -> float -> Prop :=
| float_sum_zero z : z = 0%float \/ z = neg_zero -> float_sum [] z
| float_sum_one x : float_sum [x] x
| float_sum_add l1 l2 s1 s2 :
    float_sum l1 s1 -> float_sum l2 s2 ->
    float_sum (l1 ++ l2) (s1 + s2)%float
| float_sum_perm l l' s : l ≡ₚ l' -> float_sum l s -> float_sum l' s.

Definition in_range (n : nat) (ix : list Z) : Prop :=
  Forall (fun i => - Z.of_nat n <= i < Z.of_nat n) ix.

(** What the body of the loop computes for [row]:
    [self.values[row].sum()]. *)
Definition sum_over {V} `{!PyScalar V} (a : list V) (row : list Z)
    (total : float) : Prop :=
  exists picked, np_take a row = Ok picked /\ np_sum picked = Ok total.

(** The grouped conversion the aggregating handler of a level asks for. *)
Definition grouped {T} `{!TransTable T} (l : lvl)
  : T -> list Z -> result (list (list Z)) :=
  match l with
  | Segment => s2a_2d
  | _ => r2a_2d
  end.

(** The atom-level attributes that keep the flattening read of [AtomAttr]
    at the coarser levels. *)
Definition non_aggregating (c : klass) : Prop :=
  c = AtomAttr \/ c = Atomids \/ c = Atomnames \/ c = Atomtypes.

(** The adjacency map [bd] holds tuple [t] under atom [a]. *)
Definition held (bd : gmap Z (list chain)) (a : Z) (t : chain) : Prop :=
  exists bonds, bd !! a = Some bonds /\ t ∈ bonds.

(** The atom indices that occur in at least one stored tuple. *)
Definition bonded_atoms (vals : list chain) : gset Z :=
  list_to_set (concat vals).

(** ** Further concrete objects *)

(** The two residues of [water_ion], with resids 101 and 102. *)
Definition resids_water_ion : attr Z table :=
  TopologyAttr.__init__ (NdArray [101; 102]) water_ion.

(** A list of tuples with an empty tuple in it. *)
Definition broken_bonds : attr chain table :=
  Bonds.__init__ (PyList [[0; 1]; []]) water_ion.

(** Another content for the array made by [np.empty]. *)
Definition one_filled : Uninitialised := {|
  np_empty := fun n => replicate n 1%float;
  np_empty_length := fun n => length_replicate n 1%float
|}.

(** ** Vocabulary of the further statements *)

(** The level at which a class indexes its [values] directly, for reading
    and for writing.  The connectivity classes write like [AtomAttr] but
    read through the adjacency map, and [TopologyAttr] has no such level. *)
Definition native_level (c : klass) : option lvl :=
  match c with
  | AtomAttr | Atomids | Atomnames | Atomtypes | Masses | Charges => Some Atom
  | ResidueAttr | Resids | Resnames => Some Residue
  | SegmentAttr | Segids => Some Segment
  | _ => None
  end.

(** The [level] tag that the dispatch compares with. *)
Definition level_tag (l : lvl) : string :=
  match l with
  | Atom => "atom"
  | Residue => "residue"
  | Segment => "segment"
  end.

(** [bd[a]] on a [defaultdict(list)]: what is read, and what the dictionary
    is afterwards. *)
Definition bonds_of (bd : gmap Z (list chain)) (a : Z) : list chain :=
  default [] (bd !! a).

Definition touch (bd : gmap Z (list chain)) (a : Z) : gmap Z (list chain) :=
  match bd !! a with
  | Some _ => bd
  | None => <[a := []]> bd
  end.

Definition touch_all (bd : gmap Z (list chain)) (ix : list Z)
  : gmap Z (list chain) :=
  fold_left touch ix bd.

(** The tuples that [Bonds.get_atoms] hands over for the atoms [ix], given
    the adjacency map. *)
Definition bonds_touching (bd : gmap Z (list chain)) (ix : list Z)
  : list chain :=
  merge_sort chain_le (remove_dups (concat (bonds_of bd <$> ix))).

(** A computation that hands back the state it was started in. *)
Definition readonly {S A} (m : M S A) : Prop := forall s, (m s).2 = s.

(** Tuples of one kind: all of the same length. *)
Definition one_length (vals : list chain) : Prop :=
  exists w, Forall (fun b => length b = w) vals.

(** * Properties *)

(** ** Subscripting *)

Lemma adjust_index_raises n i e : adjust_index n i = Raise e -> e = IndexError.
Proof. unfold adjust_index. repeat case_match; congruence. Qed.

Lemma rmap_raises {A B} (f : A -> result B) (P : exn -> Prop) l e :
  (forall a e', f a = Raise e' -> P e') -> rmap f l = Raise e -> P e.
Proof.
  intros Hf. induction l as [|a l IH]; simpl; [discriminate|].
  destruct (f a) as [b|e'] eqn:Hfa; simpl.
  - destruct (rmap f l) as [bs|e'']; simpl; [discriminate|].
    intros [= <-]. by apply IH.
  - intros [= <-]. by eapply Hf.
Qed.

Lemma np_take_raises {V} (a : list V) ix e :
  np_take a ix = Raise e -> e = IndexError.
Proof.
  apply (rmap_raises _ (fun e => e = IndexError)). intros i e'.
  destruct (adjust_index (length a) i) as [k|e''] eqn:Hk; simpl.
  - destruct (a !! k); congruence.
  - intros [= <-]. by eapply adjust_index_raises.
Qed.

Lemma seq_getitem_raises {V} (s : pyseq V) ix e :
  seq_getitem s ix = Raise e -> e = IndexError \/ e = TypeError.
Proof.
  destruct s; simpl.
  - intros H%np_take_raises. by left.
  - intros [= <-]. by right.
Qed.

Lemma adjust_index_lt n i k : adjust_index n i = Ok k -> (k < n)%nat.
Proof.
  unfold adjust_index. repeat case_match; intros [= <-];
    repeat match goal with
           | H : _ && _ = true |- _ => apply andb_true_iff in H as [? ?]
           end; lia.
Qed.

Lemma rmap_Forall2 {A B} (f : A -> result B) l bs :
  rmap f l = Ok bs <-> Forall2 (fun a b => f a = Ok b) l bs.
Proof.
  revert bs. induction l as [|a l IH]; intros bs; simpl.
  - split; [intros [= <-]; constructor | by inversion 1].
  - destruct (f a) as [b|e] eqn:Hfa; simpl.
    + destruct (rmap f l) as [bs'|e]; simpl.
      * split.
        -- intros [= <-]. constructor; [done|]. by apply IH.
        -- inversion 1; subst. f_equal. f_equal; [congruence|].
           assert (Ok bs' = Ok l') as [= ->]; [by apply IH|done].
      * split; [discriminate|]. inversion 1; subst.
        assert (@Raise (list B) e = Ok l') by (by apply IH). discriminate.
    + split; [discriminate|]. inversion 1; congruence.
Qed.

Lemma store_all_length {V} (a : list V) kxs :
  length (store_all a kxs) = length a.
Proof.
  unfold store_all. revert a. induction kxs as [|kx kxs IH]; intros a; simpl;
    [done|]. by rewrite IH, length_insert.
Qed.

(** Cells that are not written keep their content. *)
Lemma store_all_lookup_fresh {V} (a : list V) kxs k :
  k ∉ kxs.*1 -> store_all a kxs !! k = a !! k.
Proof.
  unfold store_all. revert a. induction kxs as [|[k' x] kxs IH]; intros a;
    simpl; [done|]. intros Hk. apply not_elem_of_cons in Hk as [Hne Hk].
  rewrite IH by done. by apply list_lookup_insert_ne.
Qed.

(** Writing to pairwise distinct cells: every cell holds what was written
    to it. *)
Lemma store_all_lookup {V} (a : list V) ks vs :
  NoDup ks -> Forall (fun k => (k < length a)%nat) ks ->
  length ks = length vs ->
  Forall2 (fun k v => store_all a (zip ks vs) !! k = Some v) ks vs.
Proof.
  intros Hnd. revert a vs.
  induction Hnd as [|k ks Hk Hnd IH]; intros a [|v vs] Hlt Hlen;
    simplify_eq/=; constructor.
  - change (store_all (<[k:=v]> a) (zip ks vs) !! k = Some v).
    rewrite store_all_lookup_fresh.
    + apply list_lookup_insert_eq. by inversion Hlt.
    + intros Hin. apply Hk.
      apply list_elem_of_fmap in Hin as ([k' x] & -> & Hin).
      by apply elem_of_zip_l in Hin.
  - apply (IH (<[k:=v]> a)); [|done]. inversion Hlt; subst.
    eapply Forall_impl; [done|]. intros k'. by rewrite length_insert.
Qed.

(** Values that the conversion returns unchanged. *)
Lemma rmap_unchanged {A} (f : A -> result A) l :
  Forall (fun x => f x = Ok x) l -> rmap f l = Ok l.
Proof.
  induction 1 as [|x l Hx _ IH]; simpl; [done|]. by rewrite Hx, IH.
Qed.

(** Round trip on an array: after [a[ix] = v] with as many values as
    indices, every value representable, all indices valid and no cell
    addressed twice, [a[ix]] is [v]. *)
Lemma np_put_take {V} `{!Dtype V} (a : list V) ix v ks :
  length v = length ix ->
  Forall (fun x => np_cast a x = Ok x) v ->
  check_indices (length a) ix = Ok ks -> NoDup ks ->
  exists a', np_put a ix v = Ok a' /\ length a' = length a /\
             np_take a' ix = Ok v.
Proof.
  intros Hlen Hrep Hks Hnd. unfold np_put, broadcast.
  rewrite (rmap_unchanged _ _ Hrep). simpl.
  rewrite decide_True by done. simpl. rewrite Hks. simpl.
  eexists. split; [done|]. split; [apply store_all_length|].
  unfold np_take. rewrite store_all_length. apply rmap_Forall2.
  apply rmap_Forall2 in Hks.
  assert (Forall (fun k => (k < length a)%nat) ks) as Hlt.
  { apply Forall_forall. intros k Hk.
    apply list_elem_of_lookup in Hk as [j Hj].
    destruct (Forall2_lookup_r _ _ _ _ _ Hks Hj) as (i & _ & Hi).
    by eapply adjust_index_lt. }
  assert (length ks = length v) as Hkv.
  { apply Forall2_length in Hks. lia. }
  pose proof (store_all_lookup a ks v Hnd Hlt Hkv) as Hst.
  clear Hlt Hnd Hlen Hkv Hrep.
  generalize dependent (store_all a (zip ks v)). intros a' Hst.
  revert v Hst. induction Hks as [|i k ix ks Hik Hks IH]; intros v Hst.
  - inversion Hst. constructor.
  - inversion Hst as [|? w ? ws Hw Hws]; subst. constructor; [|by apply IH].
    rewrite Hik. simpl. by rewrite Hw.
Qed.

(** ** Method resolution *)

Lemma mro_root c : last (mro c) = Some TopologyAttr.
Proof. by destruct c. Qed.

Lemma resolve_total c m : is_Some (resolve c m).
Proof. destruct c, m as [[]|[]|]; eexists; vm_compute; reflexivity. Qed.

(** A connectivity class never answers a read at a coarser level itself, and
    neither does [Bonds]: the call lands in [AtomAttr]. *)
Lemma resolve_connectivity_coarse c l :
  is_connectivity c = true -> l <> Atom ->
  resolve c (Getter l) = Some AtomAttr.
Proof. destruct c, l; simpl; intros; try done. Qed.

(** ** Level dispatch *)

Section Dispatch.
Context {V T : Type} `{!PyScalar V} `{!Dtype V} `{!Uninitialised}
  `{!TransTable T}.

(** C10: a group whose level tag is none of 'atom', 'residue', 'segment'
    falls through the [if]/[elif] chain of [__getitem__] and of
    [__setitem__]: both return [None], raise nothing and leave the attribute
    and the translation table as they were. *)
Theorem dispatch_unknown_level_returns_None
    (c : klass) (g : group) (vals : list (elem V c))
    (self : attr (elem V c) T) :
  level g <> "atom" -> level g <> "residue" -> level g <> "segment" ->
  TopologyAttr.__getitem__ (vtable_of c) g self = (Ok PyNone, self) /\
  TopologyAttr.__setitem__ (vtable_of c) g vals self = (Ok PyNone, self).
Proof.
  intros Ha Hr Hs.
  unfold TopologyAttr.__getitem__, TopologyAttr.__setitem__.
  apply String.eqb_neq in Ha, Hr, Hs. by rewrite Ha, Hr, Hs.
Qed.

(** C8: when the handler for a level is not overridden below
    [TopologyAttr], reading raises [NoDataError] and writing raises
    [NotImplementedError], in both cases without touching the state; the two
    exceptions are different. *)
Theorem default_handlers_raise (c : klass) (l : lvl) :
  (resolve c (Getter l) = Some TopologyAttr ->
   forall g (self : attr (elem V c) T),
     getter (vtable_of c) l g self = (Raise NoDataError, self)) /\
  (resolve c (Setter l) = Some TopologyAttr ->
   forall g vals (self : attr (elem V c) T),
     setter (vtable_of c) l g vals self = (Raise NotImplementedError, self)) /\
  NoDataError <> NotImplementedError.
Proof.
  split; [|split]; [| |discriminate].
  - destruct c, l; intros Hres; vm_compute in Hres;
      first [discriminate Hres | intros g self; reflexivity].
  - destruct c, l; intros Hres; vm_compute in Hres;
      first [discriminate Hres | intros g vals self; reflexivity].
Qed.

(** C1, as the code has it: the connectivity classes inherit
    [get_residues] and [get_segments] from [AtomAttr].  A read at residue or
    segment level therefore flattens the group through the translation table
    and subscripts [values]; it raises [NoDataError] only if the translation
    table does. *)
Theorem connectivity_coarse_read_is_AtomAttr
    (c : klass) (l : lvl) (g : group) (self : attr (elem V c) T) :
  is_connectivity c = true -> l <> Atom ->
  resolve c (Getter l) = Some AtomAttr /\
  getter (vtable_of c) l g self = getter AtomAttr.methods l g self /\
  ((if l is Residue then r2a_1d else s2a_1d) (tt self) (_ix g)
     <> Raise NoDataError ->
   (getter (vtable_of c) l g self).1 <> Raise NoDataError).
Proof.
  intros Hc Hl. split; [by apply resolve_connectivity_coarse|].
  assert (Hsame : getter (vtable_of c) l g self
                  = getter AtomAttr.methods l g self)
    by (destruct c, l; first [discriminate Hc | congruence | reflexivity]).
  split; [exact Hsame|]. rewrite Hsame. clear Hsame.
  destruct l; [congruence| |]; simpl;
    unfold AtomAttr.get_residues, AtomAttr.get_segments, bind, get, lift, ret.
  - destruct (r2a_1d _ _) as [aix|e]; simpl;
      [intros _|by intros Hne [= ->]; apply Hne].
    destruct (seq_getitem _ _) as [r|e] eqn:Hget; simpl; [discriminate|].
    apply seq_getitem_raises in Hget. destruct Hget; subst; discriminate.
  - destruct (s2a_1d _ _) as [aix|e]; simpl;
      [intros _|by intros Hne [= ->]; apply Hne].
    destruct (seq_getitem _ _) as [r|e] eqn:Hget; simpl; [discriminate|].
    apply seq_getitem_raises in Hget. destruct Hget; subst; discriminate.
Qed.

End Dispatch.

(** ** Witnesses for the dispatch *)

Lemma dispatch_unknown_level_witness :
  let g := {| level := "universe"; _ix := [0; 1] |} in
  let self := TopologyAttr.__init__ (NdArray [10; 20]) water_ion in
  TopologyAttr.__getitem__ (vtable_of Resids) g self = (Ok PyNone, self) /\
  TopologyAttr.__setitem__ (vtable_of Resids) g [20; 10] self
    = (Ok PyNone, self).
Proof.
  intros g self.
  apply (dispatch_unknown_level_returns_None (V:=Z) Resids g [20; 10] self);
    discriminate.
Defined.

Lemma default_handlers_witness :
  let self := TopologyAttr.__init__ (NdArray [10; 20]) water_ion in
  let g := {| level := "segment"; _ix := [0] |} in
  getter (vtable_of (V:=Z) TopologyAttr) Segment g self
    = (Raise NoDataError, self) /\
  setter (vtable_of (V:=Z) Resids) Segment g [7] self
    = (Raise NotImplementedError, self).
Proof.
  intros self g. split.
  - apply (proj1 (default_handlers_raise (V:=Z) TopologyAttr Segment)).
    reflexivity.
  - apply (proj1 (proj2 (default_handlers_raise (V:=Z) Resids Segment))).
    reflexivity.
Defined.

Lemma connectivity_coarse_read_witness :
  let g := group_of "residue" [0] in
  resolve Bonds (Getter Residue) = Some AtomAttr /\
  getter (vtable_of (V:=Z) Bonds) Residue g bonds_array
    = getter AtomAttr.methods Residue g bonds_array /\
  (r2a_1d (tt bonds_array) (_ix g) <> Raise NoDataError ->
   (getter (vtable_of (V:=Z) Bonds) Residue g bonds_array).1
     <> Raise NoDataError).
Proof.
  intros g.
  apply (connectivity_coarse_read_is_AtomAttr (V:=Z) Bonds Residue g
           bonds_array); [reflexivity | discriminate].
Defined.

(** C1 as stated fails.  On the bonds of [water_ion], a read at residue or
    segment level does not raise [NoDataError]: with [values] a list of
    tuples the subscript raises [TypeError], with [values] an array it hands
    back the rows of the member atoms. *)
Lemma connectivity_coarse_read_counterexample :
  (m_get_residues (vtable_of (V:=Z) Bonds) (group_of "residue" [0])
     bonds_list).1 = Raise TypeError /\
  (m_get_segments (vtable_of (V:=Z) Angles) (group_of "segment" [0])
     bonds_list).1 = Raise TypeError /\
  (m_get_residues (vtable_of (V:=Z) Bonds) (group_of "residue" [0])
     bonds_array).1 = Ok (PyArray [[0; 2]; [1; 2]; [2; 3]]).
Proof. repeat split; vm_compute; reflexivity. Qed.

(** ** Atom-level scalar attributes *)

Section AtomLevel.
Context {V T : Type} `{!PyScalar V} `{!Dtype V} `{!Uninitialised}
  `{!TransTable T}.

Lemma atom_scalar_handlers c :
  atom_scalar c ->
  m_get_atoms (vtable_of c) = AtomAttr.get_atoms /\
  m_set_atoms (vtable_of c) = AtomAttr.set_atoms.
Proof.
  intros Hc. repeat destruct Hc as [Hc|Hc]; subst; repeat split.
Qed.

(** C7, as the code has it: for an atom-level scalar attribute whose
    [values] are an array, writing [v] at an atom group and reading the group
    back returns [v], provided [v] has one value per index, every value of
    [v] is representable in the dtype of the array, every index is valid and
    no two indices address the same atom ([ks] are the cells the indices
    stand for). *)
Theorem atom_write_read_roundtrip
    (c : klass) (ag : group) (v a : list (elem V c)) (ks : list nat)
    (self : attr (elem V c) T) :
  atom_scalar c ->
  values self = NdArray a ->
  length v = length (_ix ag) ->
  representable a v ->
  check_indices (length a) (_ix ag) = Ok ks ->
  NoDup ks ->
  exists self',
    m_set_atoms (vtable_of c) ag v self = (Ok PyNone, self') /\
    m_get_atoms (vtable_of c) ag self' = (Ok (PyArray v), self').
Proof.
  intros Hc Hvals Hlen Hrep Hks Hnd.
  destruct (atom_scalar_handlers c Hc) as (-> & ->).
  destruct (np_put_take a (_ix ag) v ks Hlen Hrep Hks Hnd)
    as (a' & Hput & _ & Htake).
  exists (with_values (NdArray a') self).
  unfold AtomAttr.set_atoms, AtomAttr.get_atoms, bind, get, lift, ret, modify.
  rewrite Hvals. simpl. rewrite Hput. simpl. by rewrite Htake.
Qed.

End AtomLevel.

Lemma atom_write_read_witness :
  let ag := group_of "atom" [3; -4; 1] in
  let v := [23%float; 2%float; 3%float] in
  exists self',
    m_set_atoms (vtable_of Masses) ag v masses_water_ion = (Ok PyNone, self') /\
    m_get_atoms (vtable_of Masses) ag self' = (Ok (PyArray v), self').
Proof.
  intros ag v.
  apply (atom_write_read_roundtrip (V:=float) Masses ag v
           [1%float; 1%float; 16%float; 1%float] [3; 0; 1]%nat
           masses_water_ion).
  - right. right. right. right. left. reflexivity.
  - reflexivity.
  - reflexivity.
  - repeat constructor.
  - reflexivity.
  - apply (bool_decide_unpack _). reflexivity.
Defined.

(** C7 as stated fails when the group names an atom twice: the second value
    overwrites the first, and the read returns it twice. *)
Lemma atom_write_read_counterexample :
  let ag := group_of "atom" [0; 0] in
  let self := TopologyAttr.__init__ (NdArray [7; 8; 9]) water_ion in
  let self' := (m_set_atoms (vtable_of Atomids) ag [1; 2] self).2 in
  (m_set_atoms (vtable_of Atomids) ag [1; 2] self).1 = Ok PyNone /\
  (m_get_atoms (vtable_of Atomids) ag self').1 = Ok (PyArray [2; 2]) /\
  (m_get_atoms (vtable_of Atomids) ag self').1 <> Ok (PyArray [1; 2]).
Proof. repeat split; vm_compute; congruence. Qed.

(** Values that the dtype does not hold as they are: a name of three
    characters written to the names of [water_ion], which are two characters
    wide, is read back cut to the width; an integer outside 64 bits is
    refused, and nothing is written. *)
Example Atomnames_write_cuts_to_width :
  let ag := group_of "atom" [3] in
  let self' :=
    (m_set_atoms (vtable_of Atomnames) ag ["CL1"] names_water_ion).2 in
  (m_get_atoms (vtable_of Atomnames) ag self').1 = Ok (PyArray ["CL"]).
Proof. reflexivity. Qed.

Example Atomids_write_overflows :
  let self := TopologyAttr.__init__ (NdArray [7; 8; 9]) water_ion in
  m_set_atoms (vtable_of Atomids) (group_of "atom" [0]) [2 ^ 63] self
  = (Raise OverflowError, self) /\
  m_set_atoms (vtable_of Atomids) (group_of "atom" [5]) [2 ^ 63] self
  = (Raise OverflowError, self).
Proof. split; reflexivity. Qed.

(** ** Moving atoms between residues *)

Section Reassignment.
Context {V T : Type} `{!PyScalar V} `{!Dtype V} `{!TransTable T}.

Lemma first_match_None (l : list V) item k0 :
  first_match l item k0 = None <-> no_match l item.
Proof.
  revert k0. induction l as [|x l IH]; intros k0; simpl.
  - split; [|done]. intros _ x Hx. by apply elem_of_nil in Hx.
  - destruct (py_eqb x item) eqn:Hx.
    + split; [discriminate|]. intros Hno.
      specialize (Hno x (list_elem_of_here _ _)). congruence.
    + rewrite IH. split.
      * intros Hno y Hy. apply elem_of_cons in Hy as [->|Hy]; auto.
      * intros Hno y Hy. apply Hno. by apply list_elem_of_further.
Qed.

Lemma first_match_Some (l : list V) item k0 k :
  first_match l item k0 = Some k ->
  k0 <= k /\ (Z.to_nat (k - k0) < length l)%nat /\
  (exists x, l !! Z.to_nat (k - k0) = Some x /\ py_eqb x item = true) /\
  (forall j x, (j < Z.to_nat (k - k0))%nat -> l !! j = Some x ->
               py_eqb x item = false).
Proof.
  revert k0. induction l as [|x l IH]; intros k0; simpl; [discriminate|].
  destruct (py_eqb x item) eqn:Hx.
  - intros [= <-]. rewrite Z.sub_diag. simpl.
    repeat split; [lia|lia|eauto|]. intros j y Hj. lia.
  - intros Hk. apply IH in Hk as (Hle & Hlt & (y & Hy & Hyi) & Hmin).
    replace (Z.to_nat (k - k0)) with (S (Z.to_nat (k - (k0 + 1)))) by lia.
    repeat split; [lia|lia|eauto|].
    intros [|j] z Hj Hz; simpl in Hz; [congruence|].
    apply (Hmin j); [lia|done].
Qed.

Lemma first_match_lowest (l : list V) item k :
  first_match l item 0 = Some k ->
  lowest_match l item k /\ k < Z.of_nat (length l).
Proof.
  intros Hk. apply first_match_Some in Hk as (Hle & Hlt & Hx & Hmin).
  rewrite Z.sub_0_r in *. repeat split; [done..|lia].
Qed.

Lemma has_match_first (l : list V) item :
  has_match l item -> exists k, first_match l item 0 = Some k.
Proof.
  intros (x & Hx & Hxi). destruct (first_match l item 0) eqn:Hf; [eauto|].
  apply first_match_None in Hf. rewrite (Hf x Hx) in Hxi. discriminate.
Qed.

(** One unmatched resid anywhere in the input makes the loop end in
    [NoDataError]. *)
Lemma resindexes_NoData (l : list V) resids i rix :
  (exists item, item ∈ resids /\ no_match l item) ->
  Resids.resindexes (NdArray l) i resids rix = Raise NoDataError.
Proof.
  revert i rix. induction resids as [|item rest IH]; intros i rix Hbad.
  - destruct Hbad as (item & Hin & _). by apply elem_of_nil in Hin.
  - simpl. destruct (first_match l item 0) as [k|] eqn:Hf; simpl; [|done].
    unfold store_cell. case_decide; simpl; [|done].
    apply IH. destruct Hbad as (bad & Hin & Hno).
    apply elem_of_cons in Hin as [->|Hin]; [|eauto].
    apply (first_match_None l _ 0) in Hno. rewrite Hno in Hf. discriminate.
Qed.

(** When every resid has a match and [rix] has room from [i] on, the loop
    writes the matches into consecutive cells of [rix]. *)
Lemma resindexes_Ok (l : list V) resids ks i rix :
  Forall2 (fun item k => first_match l item 0 = Some k) resids ks ->
  (i + length resids <= length rix)%nat ->
  Resids.resindexes (NdArray l) i resids rix
  = Ok (take i rix ++ (to_int32 <$> ks) ++ drop (i + length resids) rix)%list.
Proof.
  intros Hks. revert i rix.
  induction Hks as [|item k rest ks Hk Hks IH]; intros i rix Hlen; simpl.
  - by rewrite Nat.add_0_r, take_drop.
  - simpl in Hlen. rewrite Hk. simpl. unfold store_cell.
    rewrite decide_True by lia. simpl.
    rewrite IH by (rewrite length_insert; lia). f_equal.
    rewrite drop_insert_lt by lia.
    rewrite (take_S_r _ i (to_int32 k))
      by (apply list_lookup_insert_eq; lia).
    rewrite take_insert_ge by lia.
    rewrite <- (assoc_L (++)). simpl.
    replace (S (i + length rest)) with (i + S (length rest))%nat by lia. done.
Qed.

Lemma to_int32_small k : 0 <= k < 2 ^ 31 -> to_int32 k = k.
Proof.
  intros Hk. unfold to_int32.
  rewrite Z.mod_small by lia. lia.
Qed.

(** What [Resids.set_atoms] does when the stored resids are an array of
    fewer than 2^31 entries.  (1) If some input resid matches no residue,
    [set_atoms] raises [NoDataError] and the attribute and the translation
    table are as before, whatever [move_atom] would do.  (2) If every input
    resid has a match and there are no more resids than atoms in the group,
    each resid is resolved to the lowest index that matches, and these
    indices, followed by the zeros that [np.zeros] left in [rix] for the
    atoms without a resid, go to [move_atom] in one call, whose outcome is
    the outcome of [set_atoms]. *)
Lemma Resids_set_atoms_resolves
    (ag : group) (resids : list V) (l : list V) (self : attr V T) :
  values self = NdArray l ->
  Z.of_nat (length l) <= 2 ^ 31 ->
  ((exists item, item ∈ resids /\ no_match l item) ->
   Resids.set_atoms ag resids self = (Raise NoDataError, self))
  /\
  (Forall (has_match l) resids ->
   (length resids <= length (_ix ag))%nat ->
   exists ks,
     Forall2 (lowest_match l) resids ks /\
     Resids.set_atoms ag resids self
     = move_atom_once ag
         (ks ++ replicate (length (_ix ag) - length resids) 0)%list self).
Proof.
  intros Hvals Hsmall. split.
  - intros Hbad. simpl.
    unfold Resids.set_atoms, bind, get, lift. simpl.
    by rewrite Hvals, resindexes_NoData.
  - intros Hall Hlen.
    assert (exists ks, Forall2 (fun item k => first_match l item 0 = Some k)
                         resids ks) as [ks Hks].
    { clear Hlen. induction Hall as [|item rest Hitem _ [ks IH]].
      - exists []. constructor.
      - destruct (has_match_first _ _ Hitem) as [k Hk].
        exists (k :: ks). by constructor. }
    exists ks. split.
    + eapply Forall2_impl; [exact Hks|]. intros item k Hk.
      by apply first_match_lowest in Hk as [? _].
    + simpl. unfold Resids.set_atoms, move_atom_once, bind, get, lift. simpl.
      rewrite Hvals, (resindexes_Ok l resids ks)
        by (done || rewrite length_replicate; unfold group_len; simpl; lia).
      simpl. rewrite drop_replicate.
      replace (to_int32 <$> ks) with ks; [done|].
      clear Hlen Hall. induction Hks as [|item k rest ks Hk _ IH]; [done|].
      rewrite fmap_cons, <- IH. f_equal. symmetry. apply to_int32_small.
      apply first_match_lowest in Hk as [(? & _) ?]. lia.
Qed.

(** With one resid per atom, which is what the docstring asks for ("Set
    resid for each atom given"): each resid is resolved to the lowest index
    that matches; if some resid matches no residue the handler raises
    [NoDataError] and changes nothing; otherwise the resolved indices, and
    nothing else, go to [move_atom] in one call. *)
Lemma Resids_set_atoms_one_per_atom
    (ag : group) (resids : list V) (l : list V) (self : attr V T) :
  values self = NdArray l ->
  Z.of_nat (length l) <= 2 ^ 31 ->
  length resids = length (_ix ag) ->
  ((exists item, item ∈ resids /\ no_match l item) ->
   Resids.set_atoms ag resids self = (Raise NoDataError, self))
  /\
  (Forall (has_match l) resids ->
   exists ks,
     Forall2 (lowest_match l) resids ks /\
     Resids.set_atoms ag resids self = move_atom_once ag ks self).
Proof.
  intros Hvals Hsmall Hlen.
  destruct (Resids_set_atoms_resolves ag resids l self Hvals Hsmall)
    as [Hbad Hgood].
  split; [done|]. intros Hall.
  destruct (Hgood Hall) as (ks & Hks & Hrun); [lia|].
  exists ks. split; [done|].
  by rewrite Hlen, Nat.sub_diag, app_nil_r in Hrun.
Qed.

End Reassignment.

(** The scenarios of the specification: resid 99 names no residue, resid
    20 names residue 1. *)
Lemma Resids_set_atoms_scenarios :
  let ag := group_of "atom" [0] in
  Resids.set_atoms ag [99] resids_10_20_30
    = (Raise NoDataError, resids_10_20_30) /\
  exists ks,
    Forall2 (lowest_match [10; 20; 30]) [20] ks /\
    Resids.set_atoms ag [20] resids_10_20_30
    = move_atom_once ag ks resids_10_20_30.
Proof.
  intros ag. split.
  - apply (Resids_set_atoms_one_per_atom (V:=Z) ag [99] [10; 20; 30]
             resids_10_20_30); [reflexivity | simpl; lia | reflexivity |].
    exists 99. split; [apply list_elem_of_here|].
    apply (first_match_None _ _ 0). reflexivity.
  - apply (Resids_set_atoms_one_per_atom (V:=Z) ag [20] [10; 20; 30]
             resids_10_20_30); [reflexivity | simpl; lia | reflexivity |].
    repeat constructor. exists 20. split; [|reflexivity].
    apply list_elem_of_further, list_elem_of_here.
Qed.

(** The scenario of the specification: atom 0 goes to the residue with
    resid 20, which is residue 1. *)
Example Resids_set_atoms_moves :
  Resids.set_atoms (group_of "atom" [0]) [20] resids_10_20_30
  = (Ok PyNone,
     with_tt {| AR := [1; 1; 2]; RS := [0; 0; 0] |} resids_10_20_30).
Proof. reflexivity. Qed.

(** C2: the handler refuses resids that have a match.  The [try] block
    also covers the store into [rix[i]], and [rix] has one cell per atom.
    With the resids 10, 20, 30, a group of one atom and the input [20, 20],
    both resids match residue 1, yet the store into [rix[1]] raises the
    [IndexError] that the [except] clause reports as [NoDataError] ("Cannot
    assign atom to a residue that doesn't already exist"); [move_atom] is
    not called. *)
Theorem Resids_set_atoms_surplus_resid :
  Forall (has_match [10; 20; 30]) [20; 20] /\
  Resids.set_atoms (group_of "atom" [0]) [20; 20] resids_10_20_30
    = (Raise NoDataError, resids_10_20_30).
Proof.
  split; [|reflexivity].
  repeat constructor; exists 20; (split; [|reflexivity]);
    apply list_elem_of_further, list_elem_of_here.
Qed.

(** ** Masses and charges *)

Lemma adjust_index_in_range n i :
  - Z.of_nat n <= i < Z.of_nat n -> exists k, adjust_index n i = Ok k.
Proof.
  intros Hi. unfold adjust_index.
  destruct (decide (0 <= i)).
  - rewrite (proj2 (Z.leb_le 0 i)), (proj2 (Z.ltb_lt i _)) by lia. eauto.
  - rewrite (proj2 (Z.leb_gt 0 i)) by lia. simpl.
    rewrite (proj2 (Z.leb_le _ i)), (proj2 (Z.ltb_lt i 0)) by lia. eauto.
Qed.

Lemma np_take_in_range {V} (a : list V) ix :
  in_range (length a) ix ->
  exists vs, np_take a ix = Ok vs /\ length vs = length ix.
Proof.
  unfold in_range. induction 1 as [|i ix Hi _ (vs & Hvs & Hlen)]; simpl.
  - by exists [].
  - destruct (adjust_index_in_range _ _ Hi) as [k Hk].
    destruct (lookup_lt_is_Some_2 a k) as [x Hx];
      [by eapply adjust_index_lt|].
    exists (x :: vs). unfold np_take in *. simpl.
    rewrite Hk. simpl. rewrite Hx. simpl. rewrite Hvs. simpl.
    split; [done|]. by rewrite Hlen.
Qed.

Section Aggregation.
Context {V T : Type} `{!PyScalar V} `{!Dtype V} `{!Uninitialised}
  `{!TransTable T}.

(** The loop fills consecutive cells of [out], from [i] on, with the sums of
    the rows. *)
Lemma sum_rows_Ok (a : list V) rows i out :
  (forall picked, exists total, np_sum picked = Ok total) ->
  Forall (in_range (length a)) rows ->
  (i + length rows <= length out)%nat ->
  exists sums,
    Forall2 (sum_over a) rows sums /\
    sum_rows (NdArray a) i rows out
    = Ok (take i out ++ sums ++ drop (i + length rows) out)%list.
Proof.
  intros Hnum Hrows. revert i out.
  induction Hrows as [|row rows Hrow _ IH]; intros i out Hlen; simpl.
  - exists []. split; [constructor|]. simpl.
    by rewrite Nat.add_0_r, take_drop.
  - simpl in Hlen.
    destruct (np_take_in_range a row Hrow) as (picked & Hpicked & _).
    destruct (Hnum picked) as [total Htotal].
    rewrite Hpicked. simpl. rewrite Htotal. simpl. unfold store_cell.
    rewrite decide_True by lia. simpl.
    destruct (IH (S i) (<[i:=total]> out)) as (sums & Hsums & ->);
      [rewrite length_insert; lia|].
    exists (total :: sums). split.
    + constructor; [|done]. by exists picked.
    + f_equal. rewrite drop_insert_lt by lia.
      rewrite (take_S_r _ i total) by (apply list_lookup_insert_eq; lia).
      rewrite take_insert_ge by lia.
      rewrite <- (assoc_L (++)). simpl.
      replace (S (i + length rows)) with (i + S (length rows))%nat by lia.
      done.
Qed.

End Aggregation.

(** A subscript with an index array reads the cells that the indices stand
    for. *)
Lemma adjust_index_mod n i k :
  adjust_index n i = Ok k -> k = Z.to_nat (i `mod` Z.of_nat n).
Proof.
  unfold adjust_index. repeat case_match; try discriminate; intros [= <-];
    repeat match goal with
           | H : _ && _ = true |- _ => apply andb_true_iff in H as [? ?]
           end.
  - by rewrite Z.mod_small by lia.
  - f_equal. rewrite <- (Z_mod_plus_full i 1 (Z.of_nat n)).
    rewrite Z.mod_small by lia. lia.
Qed.

Lemma np_take_atom_values {V} (a : list V) row vs :
  np_take a row = Ok vs -> atom_values a row vs.
Proof.
  unfold np_take, atom_values. intros Htake%rmap_Forall2.
  eapply Forall2_impl; [exact Htake|]. intros i x Hx. simpl in Hx.
  destruct (adjust_index (length a) i) as [k|] eqn:Hk; [|discriminate].
  simpl in Hx. rewrite <- (adjust_index_mod _ _ _ Hk).
  by destruct (a !! k); simplify_eq.
Qed.

(** *** The float64 reduction *)

Lemma add_up_sum (l0 l : list float) s0 :
  float_sum l0 s0 -> float_sum (l0 ++ l) (add_up s0 l).
Proof.
  revert l0 s0. induction l as [|x l IH]; intros l0 s0 H0.
  - by rewrite app_nil_r.
  - replace (l0 ++ x :: l)%list with ((l0 ++ [x]) ++ l)%list
      by (by rewrite <- (assoc_L (++))).
    apply (IH (l0 ++ [x])%list). apply float_sum_add; [done|constructor].
Qed.

Lemma add_up_groups (gs : list (list float)) r l0 s0 :
  Forall2 float_sum gs r -> float_sum l0 s0 ->
  float_sum (l0 ++ concat gs) (add_up s0 r).
Proof.
  intros Hf. revert l0 s0.
  induction Hf as [|g s gs r Hg _ IH]; intros l0 s0 H0; simpl.
  - by rewrite app_nil_r.
  - rewrite (assoc_L (++)). apply (IH (l0 ++ g)%list).
    by apply float_sum_add.
Qed.

Lemma combine8_sum (gs : list (list float)) r :
  Forall2 float_sum gs r -> float_sum (concat gs) (combine8 r).
Proof.
  intros Hf.
  pose proof (add_up_groups gs r [] neg_zero Hf
                (float_sum_zero _ (or_intror eq_refl))) as F.
  destruct r as [|r0 [|r1 [|r2 [|r3 [|r4 [|r5 [|r6 [|r7 [|r8 r]]]]]]]]];
    try exact F.
  clear F.
  repeat match goal with
         | H : Forall2 _ _ (_ :: _) |- _ =>
             apply Forall2_cons_inv_r in H as (? & ? & ? & H & ->)
         end.
  apply Forall2_nil_inv_r in Hf as ->.
  match goal with
  | |- float_sum (concat [?g0; ?g1; ?g2; ?g3; ?g4; ?g5; ?g6; ?g7]) _ =>
      replace (concat [g0; g1; g2; g3; g4; g5; g6; g7])
        with (((g0 ++ g1) ++ (g2 ++ g3)) ++ ((g4 ++ g5) ++ (g6 ++ g7)))%list
        by (simpl; rewrite app_nil_r, <- !(assoc_L (++)); done)
  end.
  simpl. repeat apply float_sum_add; assumption.
Qed.

(** One round of the eight running sums: each takes one more element. *)
Lemma accumulate_step (gs : list (list float)) r cs :
  Forall2 float_sum gs r -> length cs = length r ->
  Forall2 float_sum (zip_with (fun g c => (g ++ [c])%list) gs cs)
    (zip_with PrimFloat.add r cs) /\
  concat (zip_with (fun g c => (g ++ [c])%list) gs cs) ≡ₚ concat gs ++ cs.
Proof.
  intros Hf. revert cs.
  induction Hf as [|g s gs r Hg Hf IH]; intros [|c cs] Hlen; simplify_eq/=.
  - split; [constructor|done].
  - destruct (IH cs) as [IH1 IH2]; [done|]. split.
    + constructor; [|done]. apply float_sum_add; [done|constructor].
    + rewrite IH2, <- !(assoc_L (++)). f_equiv. simpl.
      apply Permutation_middle.
Qed.

Lemma accumulate_sums k (gs : list (list float)) r l r' rest :
  Forall2 float_sum gs r -> length r = 8%nat -> (8 * k <= length l)%nat ->
  accumulate k r l = (r', rest) ->
  exists gs', Forall2 float_sum gs' r' /\ concat gs' ++ rest ≡ₚ concat gs ++ l.
Proof.
  revert gs r l. induction k as [|k IH]; intros gs r l Hf Hr Hl; simpl.
  - intros [= <- <-]. by exists gs.
  - intros Hacc.
    destruct (accumulate_step gs r (take 8 l) Hf) as [Hf' Hperm].
    { rewrite length_take. lia. }
    destruct (IH _ _ (drop 8 l) Hf') as (gs' & Hgs' & Hp'); [..|done|].
    { rewrite length_zip_with, length_take. lia. }
    { rewrite length_drop. lia. }
    exists gs'. split; [done|].
    by rewrite Hp', Hperm, <- (assoc_L (++)), take_drop.
Qed.

Lemma singles_sum (l : list float) :
  Forall2 float_sum ((fun x => [x]) <$> l) l /\
  concat ((fun x => [x]) <$> l) = l.
Proof.
  induction l as [|x l [IH1 IH2]]; [by split; [constructor|]|].
  rewrite fmap_cons. simpl. split; [|by rewrite IH2].
  constructor; [constructor|done].
Qed.

Lemma block_sum_sum (l : list float) :
  (8 <= length l)%nat -> float_sum l (block_sum l).
Proof.
  intros Hn. unfold block_sum.
  destruct (accumulate _ _ _) as [r' rest] eqn:Hacc.
  destruct (singles_sum (take 8 l)) as [Hsingle Hconcat].
  destruct (accumulate_sums (length l `div` 8 - 1) _ _ (drop 8 l) r' rest
              Hsingle) as (gs' & Hgs' & Hp); [..|done|].
  { rewrite length_take. lia. }
  { rewrite length_drop. pose proof (Nat.Div0.mul_div_le (length l) 8). lia. }
  apply (float_sum_perm (concat gs' ++ rest)).
  - by rewrite Hp, Hconcat, take_drop.
  - by apply add_up_sum, combine8_sum.
Qed.

Lemma pairwise_sum_sum fuel (l : list float) :
  float_sum l (pairwise_sum fuel l).
Proof.
  revert l. induction fuel as [|fuel IH]; intros l;
    cbn [pairwise_sum];
    (destruct (Nat.ltb_spec (length l) 8);
     [apply (add_up_sum [] l neg_zero); constructor; by right|]);
    destruct (length l <=? 128)%nat; try (by apply block_sum_sum).
  set (n2 := (length l `div` 2 - (length l `div` 2) `mod` 8)%nat).
  rewrite <- (take_drop n2 l) at 1. apply float_sum_add; apply IH.
Qed.

(** [ndarray.sum()] on float64 values returns a float64 sum of them. *)
Lemma float64_sum_adds (l : list float) :
  exists s, np_sum l = Ok s /\ float_sum l s.
Proof.
  eexists. split; [reflexivity|].
  apply (float_sum_add [] l); [constructor; by left|apply pairwise_sum_sum].
Qed.

Section FloatAggregation.
Context {T : Type} `{!PyScalar float} `{!Dtype float} `{!Uninitialised}
  `{!TransTable T}.

(** C3: for [Masses] and for [Charges], with [values] a float64 array, a
    read at residue level (or at segment level) returns one float per
    residue (segment) of the group, in the order of the group's indices:
    entry [i] is a float64 sum of the values of the atoms that the
    translation table lists for the [i]-th index of the group, each atom
    of the row counted once.  The translation table is asked once for the
    rows of member atoms and answers with one row of valid atom indices per
    index of the group; [ndarray.sum()] returns a float64 sum of the values
    it is given. *)
Theorem aggregating_reads_sum_rows
    (l : lvl) (g : group) (a : list float) (rows : list (list Z))
    (self : attr float T) :
  l <> Atom ->
  values self = NdArray a ->
  (forall picked, exists s, np_sum picked = Ok s /\ float_sum picked s) ->
  grouped l (tt self) (_ix g) = Ok rows ->
  length rows = length (_ix g) ->
  Forall (in_range (length a)) rows ->
  exists out,
    getter (vtable_of (V:=float) Masses) l g self
      = (Ok (PyFloat64Array out), self) /\
    getter (vtable_of (V:=float) Charges) l g self
      = (Ok (PyFloat64Array out), self) /\
    length out = length (_ix g) /\
    Forall2 (fun row s => exists vs, atom_values a row vs /\ float_sum vs s)
      rows out.
Proof.
  intros Hl Hvals Hnum Hrows Hlen Hrange.
  destruct (sum_rows_Ok a rows 0 (np_empty (group_len g))) as
    (sums & Hsums & Hloop); [|done|..].
  { intros picked. destruct (Hnum picked) as (s & Hs & _). eauto. }
  { rewrite np_empty_length. unfold group_len. simpl. lia. }
  rewrite drop_ge, app_nil_r in Hloop
    by (rewrite np_empty_length; unfold group_len; simpl; lia).
  simpl in Hloop.
  exists sums.
  assert (length sums = length (_ix g)) as Hout.
  { apply Forall2_length in Hsums. lia. }
  assert (Forall2 (fun row s => exists vs, atom_values a row vs /\
                                  float_sum vs s) rows sums) as Hspec.
  { eapply Forall2_impl; [exact Hsums|].
    intros row s (picked & Hpicked & Hs). exists picked.
    split; [by apply np_take_atom_values|].
    destruct (Hnum picked) as (s' & Hs' & Hsum). congruence. }
  destruct l; [done| |]; simpl in *;
    unfold Masses.get_residues, Charges.get_residues,
           Masses.get_segments, Charges.get_segments, bind, get, lift, ret;
    change (elem float Masses) with float;
    change (elem float Charges) with float;
    rewrite Hrows; simpl; rewrite Hvals, Hloop; done.
Qed.

End FloatAggregation.

(** The scenario of the specification, through the theorem. *)
Lemma aggregating_reads_witness :
  let rg := group_of "residue" [0; 1] in
  let a := [1%float; 1%float; 16%float; 1%float] in
  exists out,
    getter (vtable_of Masses) Residue rg masses_water_ion
      = (Ok (PyFloat64Array out), masses_water_ion) /\
    getter (vtable_of Charges) Residue rg masses_water_ion
      = (Ok (PyFloat64Array out), masses_water_ion) /\
    length out = length (_ix rg) /\
    Forall2 (fun row s => exists vs, atom_values a row vs /\ float_sum vs s)
      [[0; 1; 2]; [3]] out /\
    out = [18%float; 1%float].
Proof.
  intros rg a.
  destruct (aggregating_reads_sum_rows Residue rg a [[0; 1; 2]; [3]]
              masses_water_ion) as (out & HM & HC & Hlen & Hsum).
  - discriminate.
  - reflexivity.
  - apply float64_sum_adds.
  - reflexivity.
  - reflexivity.
  - repeat constructor; simpl; lia.
  - exists out. repeat split; try done.
    assert (getter (vtable_of Masses) Residue rg masses_water_ion
            = (Ok (PyFloat64Array [18%float; 1%float]), masses_water_ion))
      as Hrun by reflexivity.
    rewrite Hrun in HM. by injection HM.
Defined.

(** The scenario of the specification: masses 1, 1, 16, 1 with the first
    three atoms in residue 0 and the last in residue 1. *)
Example Masses_get_residues_scenario :
  m_get_residues (vtable_of Masses) (group_of "residue" [0; 1])
    masses_water_ion
  = (Ok (PyFloat64Array [18%float; 1%float]), masses_water_ion).
Proof. reflexivity. Qed.

(** ** Reading atom attributes through segments *)

Section Flattening.
Context {V T : Type} `{!PyScalar V} `{!Dtype V} `{!Uninitialised}
  `{!TransTable T}.

(** C9: a non-aggregating atom-level attribute read at segment level
    returns one value per member atom.  With [rows] the member atoms of the
    segments of the group, one row per segment, and the flat conversion of
    the translation table the concatenation of the rows it answers with,
    the result holds the values of the member atoms, segment after segment
    and atom after atom, so that it has as many entries as the rows have
    atoms in total. *)
Theorem segment_read_is_flattened
    (c : klass) (sg : group) (a : list (elem V c)) (rows : list (list Z))
    (self : attr (elem V c) T) :
  non_aggregating c ->
  values self = NdArray a ->
  (forall rows', s2a_2d (tt self) (_ix sg) = Ok rows' ->
                 s2a_1d (tt self) (_ix sg) = Ok (concat rows')) ->
  s2a_2d (tt self) (_ix sg) = Ok rows ->
  Forall (in_range (length a)) rows ->
  exists out,
    m_get_segments (vtable_of c) sg self = (Ok (PyArray out), self) /\
    atom_values a (concat rows) out /\
    length out = sum_list (length <$> rows).
Proof.
  intros Hc Hvals Hflat Hrows Hrange. apply Hflat in Hrows.
  assert (m_get_segments (vtable_of c) = AtomAttr.get_segments) as ->
    by (repeat destruct Hc as [Hc|Hc]; subst; reflexivity).
  destruct (np_take_in_range a (concat rows)) as (out & Hout & Hlen).
  { unfold in_range in *. by apply Forall_concat. }
  exists out. split; [|split].
  - unfold AtomAttr.get_segments, bind, get, lift, ret.
    rewrite Hrows. simpl. rewrite Hvals. simpl. by rewrite Hout.
  - by apply np_take_atom_values.
  - rewrite Hlen. clear. induction rows as [|row rows IH]; simpl; [done|].
    by rewrite length_app, IH.
Qed.

End Flattening.

(** One segment of four atoms: four names, those of its atoms. *)
Lemma segment_read_witness :
  let sg := group_of "segment" [0] in
  let a := ["H1"; "H2"; "OW"; "NA"] in
  exists out,
    m_get_segments (vtable_of Atomnames) sg names_water_ion
      = (Ok (PyArray out), names_water_ion) /\
    atom_values a (concat [[0; 1; 2; 3]]) out /\
    length out = sum_list (length <$> [[0; 1; 2; 3]]) /\
    out = ["H1"; "H2"; "OW"; "NA"].
Proof.
  intros sg a.
  destruct (segment_read_is_flattened (V:=string) Atomnames sg a
              [[0; 1; 2; 3]] names_water_ion) as (out & Hget & Hvals & Hlen).
  - right. right. left. reflexivity.
  - reflexivity.
  - intros rows' Hrows'. injection Hrows' as <-. reflexivity.
  - reflexivity.
  - repeat constructor; simpl; lia.
  - exists out. repeat split; try done.
    assert (m_get_segments (vtable_of Atomnames) sg names_water_ion
            = (Ok (PyArray a), names_water_ion)) as Hrun by reflexivity.
    rewrite Hrun in Hget. by injection Hget.
Defined.

(** One segment, four names. *)
Example Atomnames_get_segments_scenario :
  m_get_segments (vtable_of Atomnames) (group_of "segment" [0])
    names_water_ion
  = (Ok (PyArray ["H1"; "H2"; "OW"; "NA"]), names_water_ion).
Proof. reflexivity. Qed.

(** ** The adjacency map *)

Lemma tuple_getitem_first (b : chain) :
  tuple_getitem b 0 = match head b with
                      | Some a => Ok a
                      | None => Raise IndexError
                      end.
Proof. by destruct b. Qed.

Lemma tuple_getitem_last (b : chain) :
  tuple_getitem b (-1) = match last b with
                         | Some a => Ok a
                         | None => Raise IndexError
                         end.
Proof.
  destruct (decide (b = [])) as [->|Hb]; [done|].
  unfold tuple_getitem, adjust_index.
  assert (0 < length b)%nat by (destruct b; simpl; [done|lia]).
  change (0 <=? -1) with false. simpl.
  rewrite (proj2 (Z.leb_le _ _)) by lia. simpl.
  rewrite last_lookup.
  replace (Z.to_nat (-1 + Z.of_nat (length b))) with (pred (length b)) by lia.
  done.
Qed.

Lemma orient_Ok (b b' : chain) :
  orient b = Ok b' <->
  exists first last',
    head b = Some first /\ last b = Some last' /\
    b' = if first <? last' then reverse b else b.
Proof.
  unfold orient. rewrite tuple_getitem_first, tuple_getitem_last.
  destruct (head b) as [x|] eqn:Hh; simpl.
  - destruct (last b) as [y|] eqn:Hl; simpl.
    + split; [intros [= <-]; eauto|]. by intros (? & ? & [= <-] & [= <-] & ->).
    + split; [discriminate|]. by intros (? & ? & _ & [=] & _).
  - split; [discriminate|]. by intros (? & ? & [=] & _).
Qed.

Lemma orient_total (b : chain) : b <> [] -> exists b', orient b = Ok b'.
Proof.
  intros Hb. destruct (proj2 (head_is_Some b) Hb) as [x Hx].
  destruct (proj2 (last_is_Some b) Hb) as [y Hy].
  eexists. apply orient_Ok. eauto.
Qed.

(** What the code registers never has its first index below its last. *)
Lemma orient_not_ascending (b b' : chain) x y :
  orient b = Ok b' ->
  tuple_getitem b' 0 = Ok x -> tuple_getitem b' (-1) = Ok y -> ~ x < y.
Proof.
  intros (f & l & Hf & Hl & ->)%orient_Ok.
  rewrite tuple_getitem_first, tuple_getitem_last.
  destruct (f <? l) eqn:Hfl.
  - rewrite head_reverse, last_reverse, Hf, Hl.
    intros [= <-] [= <-]. apply Z.ltb_lt in Hfl. lia.
  - rewrite Hf, Hl. intros [= <-] [= <-]. apply Z.ltb_ge in Hfl. lia.
Qed.

Lemma orient_elements (b b' : chain) a :
  orient b = Ok b' -> a ∈ b' <-> a ∈ b.
Proof.
  intros (f & l & _ & _ & ->)%orient_Ok.
  destruct (f <? l); [apply elem_of_reverse|done].
Qed.

Lemma held_append_to bd a b a' t :
  held (append_to bd a b) a' t <-> held bd a' t \/ (a' = a /\ t = b).
Proof.
  unfold held, append_to. destruct (decide (a' = a)) as [->|Hne].
  - rewrite lookup_insert_eq. split.
    + intros (bonds & [= <-] & Ht). apply elem_of_app in Ht as [Ht|Ht].
      * left. destruct (bd !! a); [eauto|by apply elem_of_nil in Ht].
      * right. by apply list_elem_of_singleton in Ht.
    + intros [(bonds & Hb & Ht)|[_ ->]]; eexists; (split; [done|]).
      * rewrite Hb. simpl. apply elem_of_app. by left.
      * apply elem_of_app. right. apply list_elem_of_here.
  - rewrite lookup_insert_ne by done. naive_solver.
Qed.

Lemma dom_append_to bd a b : dom (append_to bd a b) = {[a]} ∪ dom bd.
Proof. apply dom_insert_L. Qed.

Lemma held_register_fold bd (atoms : list Z) b a' t :
  held (fold_left (fun bd a => append_to bd a b) atoms bd) a' t <->
  held bd a' t \/ (a' ∈ atoms /\ t = b).
Proof.
  revert bd. induction atoms as [|a atoms IH]; intros bd; simpl.
  - split; [by left|]. intros [?|[Hin _]]; [done|by apply elem_of_nil in Hin].
  - rewrite IH, held_append_to. rewrite elem_of_cons. naive_solver.
Qed.

Lemma dom_register_fold bd (atoms : list Z) b :
  dom (fold_left (fun bd a => append_to bd a b) atoms bd)
  = list_to_set atoms ∪ dom bd.
Proof.
  revert bd. induction atoms as [|a atoms IH]; intros bd; simpl.
  - set_solver.
  - rewrite IH, dom_append_to. set_solver.
Qed.

Lemma held_register bd b a t :
  held (register bd b) a t <-> held bd a t \/ (a ∈ b /\ t = b).
Proof. apply held_register_fold. Qed.

Lemma dom_register bd b : dom (register bd b) = list_to_set b ∪ dom bd.
Proof. apply dom_register_fold. Qed.

(** The loop of [_bondDict], in one piece: it succeeds when every tuple has
    a first element, the map then holds exactly the oriented tuples, each
    under each of its atoms, and its keys are the atoms of the tuples. *)
Lemma build_Ok (vals : list chain) bd :
  Forall (fun b => b <> []) vals ->
  exists bd',
    build vals bd = Ok bd' /\
    (forall a t, held bd' a t <->
       held bd a t \/ exists b, b ∈ vals /\ orient b = Ok t /\ a ∈ t) /\
    dom bd' = bonded_atoms vals ∪ dom bd.
Proof.
  unfold bonded_atoms. intros Hvals. revert bd.
  induction Hvals as [|b vals Hb _ IH]; intros bd; simpl.
  - exists bd. split; [done|]. split; [|set_solver].
    intros a t. split; [by left|]. intros [?|(b & Hin & _)]; [done|].
    by apply elem_of_nil in Hin.
  - destruct (orient_total b Hb) as [b' Hb']. rewrite Hb'. simpl.
    destruct (IH (register bd b')) as (bd' & -> & Hheld & Hdom).
    exists bd'. split; [done|]. split.
    + intros a t. rewrite Hheld, held_register. split.
      * intros [[?|[Ha ->]]|(b0 & Hin & Ho & Ha)]; [by left|right..].
        -- exists b. split; [apply list_elem_of_here|done].
        -- exists b0. split; [by apply list_elem_of_further|done].
      * intros [?|(b0 & Hin & Ho & Ha)]; [by left; left|].
        apply elem_of_cons in Hin as [->|Hin].
        -- assert (t = b') as -> by congruence. left. by right.
        -- right. eauto.
    + rewrite Hdom, dom_register, list_to_set_app_L.
      assert (list_to_set b' =@{gset Z} list_to_set b) as ->; [|set_solver].
      apply set_eq. intros a. rewrite !elem_of_list_to_set.
      by apply orient_elements.
Qed.

Section Connectivity.
Context {V T : Type} `{!PyScalar V} `{!Dtype V} `{!Uninitialised}
  `{!TransTable T}.

(** First access to [_bondDict]: the map is built from [values] and put
    into the cache. *)
Lemma bondDict_first_access (self : attr chain T) :
  _cache self !! "bd" = None ->
  Forall (fun b => b <> []) (items (values self)) ->
  exists bd,
    Bonds._bondDict self
      = (Ok bd, with_cache (<["bd" := bd]> (_cache self)) self) /\
    (forall a t, held bd a t <->
       exists b, b ∈ items (values self) /\ orient b = Ok t /\ a ∈ t) /\
    dom bd = bonded_atoms (items (values self)).
Proof.
  intros Hcache Hvals.
  destruct (build_Ok (items (values self)) ∅ Hvals)
    as (bd & Hbd & Hheld & Hdom).
  exists bd. split; [|split].
  - unfold Bonds._bondDict, cached. by rewrite Hcache, Hbd.
  - intros a t. rewrite Hheld. split; [|by right].
    intros [(bonds & Hb & _)|?]; [|done]. by rewrite lookup_empty in Hb.
  - rewrite Hdom, dom_empty_L. set_solver.
Qed.

(** Later accesses hand out what the cache holds. *)
Lemma bondDict_cached (self : attr chain T) bd :
  _cache self !! "bd" = Some bd -> Bonds._bondDict self = (Ok bd, self).
Proof. intros Hc. unfold Bonds._bondDict, cached. by rewrite Hc. Qed.

(** C5: when the adjacency map is built, a stored tuple [t] with
    [t[0] < t[-1]] is registered reversed under every atom that occurs in
    it, and [t] itself is registered under no atom at all. *)
Theorem adjacency_map_holds_reversed
    (t : chain) (x y : Z) (self : attr chain T) :
  _cache self !! "bd" = None ->
  Forall (fun b => b <> []) (items (values self)) ->
  t ∈ items (values self) ->
  tuple_getitem t 0 = Ok x -> tuple_getitem t (-1) = Ok y -> x < y ->
  exists bd,
    Bonds._bondDict self
      = (Ok bd, with_cache (<["bd" := bd]> (_cache self)) self) /\
    (forall a, a ∈ t -> held bd a (reverse t)) /\
    (forall a, ~ held bd a t).
Proof.
  intros Hcache Hvals Ht Hx Hy Hxy.
  destruct (bondDict_first_access self Hcache Hvals) as (bd & Hbd & Hheld & _).
  exists bd. split; [done|]. split.
  - intros a Ha. apply Hheld. exists t. split; [done|]. split.
    + unfold orient. rewrite Hx, Hy. simpl.
      by rewrite (proj2 (Z.ltb_lt x y)).
    + by apply elem_of_reverse.
  - intros a (b & _ & Hb & _)%Hheld.
    by apply (orient_not_ascending b t x y Hb Hx Hy).
Qed.

(** C6, as the code has it: on a connectivity attribute whose adjacency map
    has not been built yet and whose tuples are not empty, [len()] builds the
    map and returns the number of distinct atom indices that occur in the
    stored tuples; [values] and the translation table are as before. *)
Theorem len_counts_bonded_atoms (self : attr chain T) :
  _cache self !! "bd" = None ->
  Forall (fun b => b <> []) (items (values self)) ->
  exists self',
    Bonds.__len__ self
      = (Ok (size (bonded_atoms (items (values self)))), self') /\
    values self' = values self /\ tt self' = tt self /\
    m_len (vtable_of (V:=V) Bonds) = Bonds.__len__ /\
    m_len (vtable_of (V:=V) Angles) = Bonds.__len__ /\
    m_len (vtable_of (V:=V) Dihedrals) = Bonds.__len__ /\
    m_len (vtable_of (V:=V) Impropers) = Bonds.__len__.
Proof.
  intros Hcache Hvals.
  destruct (bondDict_first_access self Hcache Hvals) as (bd & Hbd & _ & Hdom).
  exists (with_cache (<["bd" := bd]> (_cache self)) self).
  split; [|by repeat split].
  unfold Bonds.__len__, bind, ret. rewrite Hbd.
  by rewrite <- Hdom, size_dom.
Qed.

(** Once the map is cached, [len()] is the size of the cached map. *)
Lemma len_of_cached_map (self : attr chain T) bd :
  _cache self !! "bd" = Some bd -> Bonds.__len__ self = (Ok (size bd), self).
Proof.
  intros Hc. unfold Bonds.__len__, bind, ret. by rewrite (bondDict_cached _ bd).
Qed.

End Connectivity.

Lemma adjacency_map_witness :
  exists bd,
    Bonds._bondDict bonds_list
      = (Ok bd, with_cache (<["bd" := bd]> (_cache bonds_list)) bonds_list) /\
    (forall a, a ∈ [1; 2] -> held bd a (reverse [1; 2])) /\
    (forall a, ~ held bd a [1; 2]).
Proof.
  apply (adjacency_map_holds_reversed [1; 2] 1 2 bonds_list).
  - reflexivity.
  - repeat constructor; discriminate.
  - apply list_elem_of_further, list_elem_of_here.
  - reflexivity.
  - reflexivity.
  - lia.
Defined.

Lemma len_counts_witness :
  exists self',
    Bonds.__len__ bonds_list
      = (Ok (size (bonded_atoms (items (values bonds_list)))), self') /\
    values self' = values bonds_list /\ tt self' = tt bonds_list /\
    m_len (vtable_of (V:=Z) Bonds) = Bonds.__len__ /\
    m_len (vtable_of (V:=Z) Angles) = Bonds.__len__ /\
    m_len (vtable_of (V:=Z) Dihedrals) = Bonds.__len__ /\
    m_len (vtable_of (V:=Z) Impropers) = Bonds.__len__.
Proof.
  apply (len_counts_bonded_atoms (V:=Z) bonds_list).
  - reflexivity.
  - repeat constructor; discriminate.
Defined.

(** Three bonds over four atoms: [len()] is 4, not 3. *)
Example len_of_bonds_list :
  (Bonds.__len__ bonds_list).1 = Ok 4%nat /\
  seq_len (values bonds_list) = 3%nat.
Proof. split; vm_compute; reflexivity. Qed.

(** C6 as stated fails once [get_atoms] has been asked about an atom without
    bonds: the lookup in the [defaultdict] leaves an empty entry for atom 5
    in the cached map, and [len()] counts it, while the one stored tuple
    still names two atoms. *)
Lemma len_after_get_atoms_counterexample :
  let ag := group_of "atom" [0; 5] in
  let self' := (m_get_atoms (vtable_of (V:=Z) Bonds) ag one_bond).2 in
  (m_get_atoms (vtable_of (V:=Z) Bonds) ag one_bond).1
    = Ok (TopologyGroup [[1; 0]] "bond") /\
  values self' = PyList [[0; 1]] /\
  (m_len (vtable_of (V:=Z) Bonds) self').1 = Ok 3%nat /\
  size (bonded_atoms (items (values self'))) = 2%nat.
Proof. repeat split; vm_compute; reflexivity. Qed.

(** C4: the code at the input [(0, 1)].  The tuple has its first index below
    its last, and is registered as [(1, 0)] under both atoms; a tuple given
    as [(1, 0)] is registered unchanged. *)
Theorem bondDict_registers_descending :
  exists bd,
    (Bonds._bondDict one_bond).1 = Ok bd /\
    bd !! 0 = Some [[1; 0]] /\ bd !! 1 = Some [[1; 0]] /\
    orient [0; 1] = Ok [1; 0] /\ orient [1; 0] = Ok [1; 0].
Proof. eexists. repeat split; vm_compute; reflexivity. Qed.

(** ** On the translation table of the specification *)

Lemma positions_bounds l x k i :
  i ∈ positions l x k -> k <= i < k + Z.of_nat (length l).
Proof.
  revert k. induction l as [|y l IH]; intros k; simpl.
  - intros Hi. by apply elem_of_nil in Hi.
  - destruct (y =? x).
    + intros [->|Hi%IH]%elem_of_cons; lia.
    + intros Hi%IH. lia.
Qed.

Lemma atoms_of_residue_in_range (t : table) r :
  in_range (length (AR t)) (atoms_of_residue t r).
Proof.
  apply Forall_forall. intros i Hi%positions_bounds. lia.
Qed.

Lemma atoms_of_segment_in_range (t : table) s :
  in_range (length (AR t)) (atoms_of_segment t s).
Proof.
  apply Forall_concat, Forall_fmap, Forall_forall. intros r _.
  apply atoms_of_residue_in_range.
Qed.

Section OnTable.
Context {V : Type} `{!PyScalar V} `{!Dtype V} `{!Uninitialised}.

(** With the table of the specification and one value per atom, entry [i]
    of a residue-level read of [Masses] is the sum over the atoms whose
    residue is the [i]-th residue of the group. *)
Lemma Masses_get_residues_on_table
    (rg : group) (a : list V) (self : attr V table) :
  values self = NdArray a ->
  length a = length (AR (tt self)) ->
  (forall picked, exists total, np_sum picked = Ok total) ->
  exists out,
    Masses.get_residues rg self = (Ok (PyFloat64Array out), self) /\
    Forall2 (fun r total => sum_over a (atoms_of_residue (tt self) r) total)
      (_ix rg) out.
Proof.
  intros Hvals Hlen Hnum.
  destruct (sum_rows_Ok a (atoms_of_residue (tt self) <$> _ix rg) 0
              (np_empty (group_len rg)) Hnum) as (sums & Hsums & Hloop).
  { apply Forall_fmap, Forall_forall. intros r _. simpl. rewrite Hlen.
    apply atoms_of_residue_in_range. }
  { rewrite np_empty_length, length_fmap. unfold group_len. simpl. lia. }
  rewrite drop_ge, app_nil_r in Hloop
    by (rewrite np_empty_length, length_fmap; unfold group_len; simpl; lia).
  simpl in Hloop. exists sums. split.
  - unfold Masses.get_residues, bind, get, lift, ret. simpl.
    by rewrite Hvals, Hloop.
  - by rewrite Forall2_fmap_l in Hsums.
Qed.

(** With the table of the specification, a segment-level read of a
    non-aggregating atom attribute has one entry per atom of each segment
    of the group. *)
Lemma AtomAttr_get_segments_on_table
    (sg : group) (a : list V) (self : attr V table) :
  values self = NdArray a ->
  length a = length (AR (tt self)) ->
  exists out,
    AtomAttr.get_segments sg self = (Ok (PyArray out), self) /\
    length out
    = sum_list ((fun s => length (atoms_of_segment (tt self) s)) <$> _ix sg).
Proof.
  intros Hvals Hlen.
  destruct (np_take_in_range a
              (concat (atoms_of_segment (tt self) <$> _ix sg)))
    as (out & Hout & Hlength).
  { apply Forall_concat, Forall_fmap, Forall_forall. intros s _. simpl.
    rewrite Hlen. apply atoms_of_segment_in_range. }
  exists out. split.
  - unfold AtomAttr.get_segments, bind, get, lift, ret. simpl.
    rewrite Hvals. simpl. by rewrite Hout.
  - rewrite Hlength. clear. induction (_ix sg) as [|s six IH]; [done|].
    rewrite !fmap_cons. simpl. by rewrite length_app, IH.
Qed.

End OnTable.

(** * Further properties *)

(** ** Reading and writing at the native level *)

Lemma np_put_Ok {V} `{!Dtype V} (a : list V) ix v a' :
  np_put a ix v = Ok a' <->
  exists xs vs ks,
    rmap (np_cast a) v = Ok xs /\
    broadcast (length ix) xs = Ok vs /\
    check_indices (length a) ix = Ok ks /\
    a' = store_all a (zip ks vs).
Proof.
  unfold np_put. destruct (rmap (np_cast a) v) as [xs|e]; simpl.
  - destruct (broadcast _ xs) as [vs|e] eqn:Hvs; simpl.
    + destruct (check_indices _ ix) as [ks|e]; simpl.
      * split; [intros [= <-]; by exists xs, vs, ks|].
        intros (? & ? & ? & [= <-] & Hvs' & [= <-] & ->). congruence.
      * split; [discriminate|]. by intros (? & ? & ? & _ & _ & [=] & _).
    + split; [discriminate|].
      intros (? & ? & ? & [= <-] & Hvs' & _). congruence.
  - split; [discriminate|]. by intros (? & ? & ? & [=] & _).
Qed.

Lemma broadcast_length {V} n (v vs : list V) :
  broadcast n v = Ok vs -> length vs = n.
Proof.
  unfold broadcast. case_decide; [by intros [= <-]|].
  destruct v as [|x [|? ?]]; try discriminate.
  intros [= <-]. apply length_replicate.
Qed.

Lemma check_indices_lt n ix ks :
  check_indices n ix = Ok ks ->
  length ks = length ix /\ Forall (fun k => (k < n)%nat) ks.
Proof.
  intros Hks%rmap_Forall2. split; [symmetry; by eapply Forall2_length|].
  apply Forall_forall. intros k Hk.
  apply list_elem_of_lookup in Hk as [j Hj].
  destruct (Forall2_lookup_r _ _ _ _ _ Hks Hj) as (i & _ & Hi).
  by eapply adjust_index_lt.
Qed.

(** An index outside [-n, n) makes the whole subscript fail. *)
Lemma check_indices_out_of_range n ix :
  ~ in_range n ix -> check_indices n ix = Raise IndexError.
Proof.
  intros Hout. unfold check_indices.
  destruct (rmap (adjust_index n) ix) as [ks|e] eqn:Hks.
  - exfalso. apply Hout. apply rmap_Forall2 in Hks.
    apply Forall_forall. intros i Hi.
    apply list_elem_of_lookup in Hi as [j Hj].
    destruct (Forall2_lookup_l _ _ _ _ _ Hks Hj) as (k & _ & Hk).
    unfold adjust_index in Hk. repeat case_match; try discriminate;
      repeat match goal with
             | H : _ && _ = true |- _ => apply andb_true_iff in H as [? ?]
             end; lia.
  - f_equal. eapply (rmap_raises _ (fun e => e = IndexError)); [|exact Hks].
    intros i e'. apply adjust_index_raises.
Qed.

Lemma np_take_out_of_range {V} (a : list V) ix :
  ~ in_range (length a) ix -> np_take a ix = Raise IndexError.
Proof.
  intros Hout. destruct (np_take a ix) as [vs|e] eqn:Htake.
  - exfalso. apply Hout. apply rmap_Forall2 in Htake.
    apply Forall_forall. intros i Hi.
    apply list_elem_of_lookup in Hi as [j Hj].
    destruct (Forall2_lookup_l _ _ _ _ _ Htake Hj) as (x & _ & Hx).
    destruct (adjust_index (length a) i) as [k|] eqn:Hk; [|discriminate].
    clear Hx. unfold adjust_index in Hk. repeat case_match; try discriminate;
      repeat match goal with
             | H : _ && _ = true |- _ => apply andb_true_iff in H as [? ?]
             end; lia.
  - f_equal. by eapply np_take_raises.
Qed.

(** Writing one value to several cells and looking any of them up. *)
Lemma store_all_const {V} (a : list V) ks x k :
  Forall (fun k => (k < length a)%nat) ks -> k ∈ ks ->
  store_all a (zip ks (replicate (length ks) x)) !! k = Some x.
Proof.
  revert a. induction ks as [|k0 ks IH]; intros a Hlt Hk; simpl.
  - by apply elem_of_nil in Hk.
  - inversion Hlt as [|? ? Hk0 Hks]; subst.
    change (store_all (<[k0:=x]> a) (zip ks (replicate (length ks) x)) !! k
            = Some x).
    destruct (decide (k ∈ ks)) as [Hin|Hnin].
    + apply IH; [|done]. eapply Forall_impl; [done|].
      intros k'. by rewrite length_insert.
    + apply elem_of_cons in Hk as [->|?]; [|done].
      rewrite store_all_lookup_fresh.
      * by apply list_lookup_insert_eq.
      * intros Hin. apply Hnin.
        apply list_elem_of_fmap in Hin as ([k' y] & -> & Hin).
        by apply elem_of_zip_l in Hin.
Qed.

Section Native.
Context {V T : Type} `{!PyScalar V} `{!Dtype V} `{!Uninitialised}
  `{!TransTable T}.

(** At its native level a class reads and writes [values] directly. *)
Lemma native_handlers (c : klass) (l : lvl) :
  native_level c = Some l ->
  getter (vtable_of c) l = AtomAttr.get_atoms /\
  setter (vtable_of c) l = AtomAttr.set_atoms.
Proof. destruct c, l; intros [=]; by split. Qed.

(** A group with a known level tag reaches the handler of that level. *)
Lemma dispatch_known_level {X} (vt : vtable X T) (l : lvl) (g : group) :
  level g = level_tag l ->
  TopologyAttr.__getitem__ vt g = getter vt l g /\
  (forall vals, TopologyAttr.__setitem__ vt g vals = setter vt l g vals).
Proof.
  intros Hl. unfold TopologyAttr.__getitem__, TopologyAttr.__setitem__.
  rewrite Hl. by destruct l.
Qed.

Lemma native_getitem (c : klass) (l : lvl) (g : group) :
  native_level c = Some l -> level g = level_tag l ->
  TopologyAttr.__getitem__ (vtable_of c) g = AtomAttr.get_atoms g.
Proof.
  intros Hc Hl. destruct (dispatch_known_level (vtable_of c) l g Hl) as [-> _].
  by destruct (native_handlers c l Hc) as [-> _].
Qed.

Lemma native_setitem (c : klass) (l : lvl) (g : group) vals :
  native_level c = Some l -> level g = level_tag l ->
  TopologyAttr.__setitem__ (vtable_of c) g vals = AtomAttr.set_atoms g vals.
Proof.
  intros Hc Hl. destruct (dispatch_known_level (vtable_of c) l g Hl) as [_ ->].
  by destruct (native_handlers c l Hc) as [_ ->].
Qed.

(** X1: through the entry points, at the level a class is native to
    (residues for [ResidueAttr], [Resids], [Resnames]; segments for
    [SegmentAttr], [Segids]; atoms for the atom attributes), [A[g] = v]
    followed by [A[g]] returns [v], when [v] has one value per index, every
    value of [v] is representable in the dtype of the array, and the
    indices are valid and address pairwise distinct entities. *)
Theorem native_setitem_getitem_roundtrip
    (c : klass) (l : lvl) (g : group) (v a : list (elem V c))
    (ks : list nat) (self : attr (elem V c) T) :
  native_level c = Some l ->
  level g = level_tag l ->
  values self = NdArray a ->
  length v = length (_ix g) ->
  representable a v ->
  check_indices (length a) (_ix g) = Ok ks ->
  NoDup ks ->
  exists self',
    TopologyAttr.__setitem__ (vtable_of c) g v self = (Ok PyNone, self') /\
    TopologyAttr.__getitem__ (vtable_of c) g self' = (Ok (PyArray v), self').
Proof.
  intros Hc Hl Hvals Hlen Hrep Hks Hnd.
  rewrite (native_setitem c l g v Hc Hl), (native_getitem c l g Hc Hl).
  destruct (np_put_take a (_ix g) v ks Hlen Hrep Hks Hnd)
    as (a' & Hput & _ & Htake).
  exists (with_values (NdArray a') self).
  unfold AtomAttr.set_atoms, AtomAttr.get_atoms, bind, get, lift, ret, modify.
  rewrite Hvals. simpl. rewrite Hput. simpl. by rewrite Htake.
Qed.

(** X2: a successful write at the native level keeps the number of values
    (so [len()] is as before), keeps every entry that the group does not
    address, and touches neither the cache nor the translation table. *)
Theorem native_write_frame
    (c : klass) (l : lvl) (g : group) (v a : list (elem V c))
    (r : pyobj (elem V c)) (self self' : attr (elem V c) T) :
  native_level c = Some l ->
  level g = level_tag l ->
  values self = NdArray a ->
  TopologyAttr.__setitem__ (vtable_of c) g v self = (Ok r, self') ->
  exists a' ks,
    values self' = NdArray a' /\
    length a' = length a /\
    check_indices (length a) (_ix g) = Ok ks /\
    (forall k, k ∉ ks -> a' !! k = a !! k) /\
    _cache self' = _cache self /\ tt self' = tt self /\
    m_len (vtable_of c) self' = (Ok (length a), self').
Proof.
  intros Hc Hl Hvals. rewrite (native_setitem c l g v Hc Hl).
  unfold AtomAttr.set_atoms, bind, get, lift, ret, modify.
  rewrite Hvals. simpl.
  destruct (np_put a (_ix g) v) as [a'|e] eqn:Hput; simpl; [|discriminate].
  intros [= <- <-].
  apply np_put_Ok in Hput as (xs & vs & ks & _ & _ & Hks & ->).
  exists (store_all a (zip ks vs)), ks.
  repeat split; try done.
  - apply store_all_length.
  - intros k Hk. apply store_all_lookup_fresh. intros Hin. apply Hk.
    apply list_elem_of_fmap in Hin as ([k' y] & -> & Hin).
    by apply elem_of_zip_l in Hin.
  - assert (m_len (vtable_of c) = TopologyAttr.__len__) as ->
      by (destruct c; first [discriminate Hc | reflexivity]).
    unfold TopologyAttr.__len__, bind, get, ret, seq_len. simpl.
    by rewrite store_all_length.
Qed.

(** X4: an index outside [-n, n), for [n] values, makes a read at the
    native level raise [IndexError], and so does a write whose values are
    representable in the dtype of the array and fit the shape of the group;
    nothing is written.  (The values are converted before the indices are
    looked at, so a value that the dtype refuses is reported first.) *)
Theorem native_index_out_of_range
    (c : klass) (l : lvl) (g : group) (v a : list (elem V c))
    (self : attr (elem V c) T) :
  native_level c = Some l ->
  level g = level_tag l ->
  values self = NdArray a ->
  ~ in_range (length a) (_ix g) ->
  TopologyAttr.__getitem__ (vtable_of c) g self = (Raise IndexError, self) /\
  (representable a v ->
   length v = length (_ix g) \/ length v = 1%nat ->
   TopologyAttr.__setitem__ (vtable_of c) g v self
     = (Raise IndexError, self)).
Proof.
  intros Hc Hl Hvals Hout.
  rewrite (native_setitem c l g v Hc Hl), (native_getitem c l g Hc Hl).
  unfold AtomAttr.set_atoms, AtomAttr.get_atoms, bind, get, lift, ret, modify.
  rewrite Hvals. simpl. split.
  - by rewrite np_take_out_of_range.
  - intros Hrep Hshape. unfold np_put, broadcast.
    rewrite (rmap_unchanged _ _ Hrep). simpl.
    rewrite check_indices_out_of_range by done.
    case_decide; simpl; [done|].
    destruct Hshape as [?|Hone]; [done|].
    by destruct v as [|x [|? ?]].
Qed.

(** X5: writing a single value that is representable in the dtype of the
    array to a group with valid indices writes it to every entity of the
    group, repeated indices or not: reading the group back returns the
    value once per index. *)
Theorem native_broadcast_write
    (c : klass) (l : lvl) (g : group) (x : elem V c) (a : list (elem V c))
    (self : attr (elem V c) T) :
  native_level c = Some l ->
  level g = level_tag l ->
  values self = NdArray a ->
  np_cast a x = Ok x ->
  in_range (length a) (_ix g) ->
  exists self',
    TopologyAttr.__setitem__ (vtable_of c) g [x] self = (Ok PyNone, self') /\
    TopologyAttr.__getitem__ (vtable_of c) g self'
      = (Ok (PyArray (replicate (length (_ix g)) x)), self').
Proof.
  intros Hc Hl Hvals Hrep Hrange.
  rewrite (native_setitem c l g [x] Hc Hl), (native_getitem c l g Hc Hl).
  destruct (check_indices (length a) (_ix g)) as [ks|e] eqn:Hks.
  2: { exfalso. unfold check_indices in Hks.
       assert (exists ks, rmap (adjust_index (length a)) (_ix g) = Ok ks)
         as [ks Hks']; [|congruence].
       clear Hks. induction Hrange as [|i ix Hi _ [ks IH]]; [by exists []|].
       destruct (adjust_index_in_range _ _ Hi) as [k Hk].
       exists (k :: ks). simpl. by rewrite Hk, IH. }
  destruct (check_indices_lt _ _ _ Hks) as [Hlen Hlt].
  assert (broadcast (length (_ix g)) [x]
          = Ok (replicate (length (_ix g)) x)) as Hb.
  { unfold broadcast. case_decide as Hone; [|done].
    simpl in Hone. by rewrite <- Hone. }
  exists (with_values
            (NdArray (store_all a (zip ks (replicate (length (_ix g)) x))))
            self).
  unfold AtomAttr.set_atoms, AtomAttr.get_atoms, bind, get, lift, ret, modify.
  rewrite Hvals. simpl. unfold np_put. simpl. rewrite Hrep. simpl.
  rewrite Hb. simpl. rewrite Hks. simpl.
  split; [done|].
  assert (np_take (store_all a (zip ks (replicate (length (_ix g)) x)))
            (_ix g) = Ok (replicate (length (_ix g)) x)) as ->; [|done].
  apply rmap_Forall2. rewrite store_all_length.
  apply rmap_Forall2 in Hks. rewrite <- Hlen.
  assert (forall k, k ∈ ks ->
            store_all a (zip ks (replicate (length ks) x)) !! k = Some x)
    as Hst by (intros k; by apply store_all_const).
  generalize dependent (store_all a (zip ks (replicate (length ks) x))).
  intros a'. clear Hlen Hlt Hb Hrange.
  induction Hks as [|i k ix ks Hik Hks IH]; intros Hst; simpl; constructor.
  - rewrite Hik. simpl. by rewrite (Hst k (list_elem_of_here _ _)).
  - apply IH. intros k' Hk'. apply Hst. by apply list_elem_of_further.
Qed.

End Native.

(** ** What the handlers leave alone *)

Lemma readonly_ret {S A} (a : A) : readonly (ret (S:=S) a).
Proof. done. Qed.

Lemma readonly_raise {S A} e : readonly (raise (S:=S) (A:=A) e).
Proof. done. Qed.

Lemma readonly_lift {S A} (r : result A) : readonly (lift (S:=S) r).
Proof. done. Qed.

Lemma readonly_get {S} : readonly (get (S:=S)).
Proof. done. Qed.

Lemma readonly_bind {S A B} (m : M S A) (k : A -> M S B) :
  readonly m -> (forall a, readonly (k a)) -> readonly (bind m k).
Proof.
  intros Hm Hk s. unfold bind. specialize (Hm s).
  destruct (m s) as [[a|e] s']; simpl in *; subst; [apply Hk|done].
Qed.

#[local] Ltac readonly_steps :=
  repeat first
    [ apply readonly_ret | apply readonly_raise | apply readonly_lift
    | apply readonly_get | apply readonly_bind; [|intros ?] ].

Section LeftAlone.
Context {V T : Type} `{!PyScalar V} `{!Dtype V} `{!Uninitialised}
  `{!TransTable T}.

Lemma getter_readonly (c : klass) (l : lvl) (g : group) :
  is_connectivity c = false \/ l <> Atom ->
  readonly (getter (vtable_of c) l g).
Proof.
  intros Hcl.
  destruct c, l; simpl;
    try (destruct Hcl as [Hcl|Hcl]; [discriminate Hcl|by destruct Hcl]);
    clear Hcl;
    unfold TopologyAttr.get_atoms, TopologyAttr.get_residues,
      TopologyAttr.get_segments, AtomAttr.get_atoms, AtomAttr.get_residues,
      AtomAttr.get_segments, Masses.get_residues, Masses.get_segments,
      Charges.get_residues, Charges.get_segments, ResidueAttr.get_atoms,
      ResidueAttr.get_residues, ResidueAttr.get_segments,
      SegmentAttr.get_atoms, SegmentAttr.get_residues,
      SegmentAttr.get_segments;
    readonly_steps.
Qed.

(** X6: reading never changes anything, with one exception.  For every
    class and every group, [A[g]] leaves [values], the cache and the
    translation table as they were, whether it returns or raises, unless the
    class is a connectivity class and the group is an atom group (that read
    goes through the adjacency map). *)
Theorem getitem_changes_nothing
    (c : klass) (g : group) (self : attr (elem V c) T) :
  is_connectivity c = false \/ level g <> "atom" ->
  (TopologyAttr.__getitem__ (vtable_of c) g self).2 = self.
Proof.
  intros Hcg. unfold TopologyAttr.__getitem__.
  destruct (String.eqb (level g) "atom") eqn:Ha.
  - apply (getter_readonly c Atom g). destruct Hcg as [?|Hne]; [by left|].
    by apply String.eqb_eq in Ha.
  - destruct (String.eqb (level g) "residue").
    + apply (getter_readonly c Residue g). by right.
    + destruct (String.eqb (level g) "segment"); [|done].
      apply (getter_readonly c Segment g). by right.
Qed.

Lemma direct_set_fails {X} `{!Dtype X} (g : group) (v : list X) e
    (self self' : attr X T) :
  AtomAttr.set_atoms g v self = (Raise e, self') -> self' = self.
Proof.
  unfold AtomAttr.set_atoms, bind, get, lift, ret, modify.
  destruct (seq_setitem _ _ _); simpl; [discriminate|]. by intros [= _ <-].
Qed.

Lemma setter_cases (c : klass) (l : lvl) :
  setter (vtable_of c) l = AtomAttr.set_atoms \/
  setter (vtable_of c) l = (fun _ _ => raise NotImplementedError) \/
  (c = Resids /\ l = Atom).
Proof.
  destruct c, l;
    first [ by left | by right; left | by right; right ].
Qed.

(** X3: a write that raises changes nothing.  For every class and every
    group, if [A[g] = v] raises (not implemented at that level, a value
    that the dtype refuses, values of the wrong shape, an index out of
    range, [values] being a list), the attribute and the translation table
    are as before.  The one handler left
    out is [Resids.set_atoms], whose failure may come from [move_atom]. *)
Theorem failed_setitem_changes_nothing
    (c : klass) (g : group) (v : list (elem V c)) (e : exn)
    (self self' : attr (elem V c) T) :
  ~ (c = Resids /\ level g = "atom") ->
  TopologyAttr.__setitem__ (vtable_of c) g v self = (Raise e, self') ->
  self' = self.
Proof.
  intros Hnot. unfold TopologyAttr.__setitem__.
  assert (forall l, ~ (c = Resids /\ l = Atom) ->
            setter (vtable_of c) l g v self = (Raise e, self') -> self' = self)
    as Hset.
  { intros l Hl. destruct (setter_cases c l) as [->|[->|?]]; [| |done].
    - apply direct_set_fails.
    - by intros [= _ <-]. }
  destruct (String.eqb (level g) "atom") eqn:Ha.
  - apply (Hset Atom). intros [-> _]. apply Hnot.
    by apply String.eqb_eq in Ha.
  - destruct (String.eqb (level g) "residue").
    + apply (Hset Residue). by intros [_ [=]].
    + destruct (String.eqb (level g) "segment").
      * apply (Hset Segment). by intros [_ [=]].
      * discriminate.
Qed.

(** X7: [Resids.set_atoms] never renames a residue.  Whatever the input and
    whatever [move_atom] does, the stored resids and the cache are as
    before, and reading the resids of any residue group gives what it gave
    before. *)
Theorem Resids_set_atoms_keeps_values
    (ag rg : group) (resids : list V) (self : attr V T) :
  let self' := (Resids.set_atoms ag resids self).2 in
  values self' = values self /\
  _cache self' = _cache self /\
  (ResidueAttr.get_residues rg self').1 = (ResidueAttr.get_residues rg self).1.
Proof.
  assert (exists t', (Resids.set_atoms ag resids self).2 = with_tt t' self)
    as [t' ->].
  { unfold Resids.set_atoms, bind, get, lift.
    destruct (Resids.resindexes _ _ _ _); simpl.
    - destruct (move_atom _ _ _) as [r t']. by exists t'.
    - exists (tt self). by destruct self. }
  repeat split.
  unfold ResidueAttr.get_residues, bind, get, lift, ret. simpl.
  by destruct (seq_getitem _ _).
Qed.

End LeftAlone.

(** ** Resids, seen through the translation table of the specification *)

Lemma adjust_index_nonneg n k :
  0 <= k < Z.of_nat n -> adjust_index n k = Ok (Z.to_nat k).
Proof.
  intros Hk. unfold adjust_index.
  by rewrite (proj2 (Z.leb_le 0 k)), (proj2 (Z.ltb_lt k _)) by lia.
Qed.

(** The residue array of the table holds the residue of each atom: asking
    for the atoms of residue [r] and then for their residues gives [r] back,
    once per atom. *)
Lemma np_take_positions (pre l : list Z) r :
  np_take (pre ++ l) (positions l r (Z.of_nat (length pre)))
  = Ok (replicate (length (positions l r (Z.of_nat (length pre)))) r).
Proof.
  revert pre. induction l as [|y l IH]; intros pre; simpl; [done|].
  assert (np_take (pre ++ y :: l) (positions l r (Z.of_nat (length pre) + 1))
          = Ok (replicate
                  (length (positions l r (Z.of_nat (length pre) + 1))) r))
    as Hrest.
  { specialize (IH (pre ++ [y])%list).
    rewrite <- (assoc_L (++)), length_app in IH. simpl in IH.
    by replace (Z.of_nat (length pre + 1)) with (Z.of_nat (length pre) + 1)
      in IH by lia. }
  destruct (y =? r) eqn:Hy; [|done].
  apply Z.eqb_eq in Hy as ->. simpl. unfold np_take in *. simpl.
  rewrite adjust_index_nonneg by (rewrite length_app; simpl; lia). simpl.
  rewrite Nat2Z.id, lookup_app_r, Nat.sub_diag by lia. simpl.
  by rewrite Hrest.
Qed.

Section ResidsOnTable.
Context {V : Type} `{!PyScalar V} `{!Dtype V}.

Lemma first_matches_exist (l resids : list V) :
  Forall (has_match l) resids ->
  exists ks, Forall2 (fun item k => first_match l item 0 = Some k) resids ks.
Proof.
  induction 1 as [|item rest Hitem _ [ks IH]]; [by exists []|].
  destruct (has_match_first _ _ Hitem) as [k Hk].
  exists (k :: ks). by constructor.
Qed.

Lemma first_matches_int32 (l resids : list V) ks :
  Z.of_nat (length l) <= 2 ^ 31 ->
  Forall2 (fun item k => first_match l item 0 = Some k) resids ks ->
  to_int32 <$> ks = ks.
Proof.
  intros Hsmall. induction 1 as [|item k rest ks Hk _ IH]; [done|].
  rewrite fmap_cons, IH. f_equal. apply to_int32_small.
  apply first_match_lowest in Hk as [(? & _) ?]. lia.
Qed.

(** The resolved indices are representable in the int64 array of the
    table. *)
Lemma first_matches_fit (l resids : list V) ks (ar : list Z) :
  Z.of_nat (length l) <= 2 ^ 31 ->
  Forall2 (fun item k => first_match l item 0 = Some k) resids ks ->
  representable ar ks.
Proof.
  intros Hsmall. induction 1 as [|item k rest ks Hk _ IH]; constructor;
    [|done].
  apply first_match_lowest in Hk as [(? & _) ?]. simpl.
  replace (fits_int64 k) with true; [done|]. symmetry.
  apply andb_true_iff. split; [apply Z.leb_le|apply Z.ltb_lt]; lia.
Qed.

(** Subscripting the stored resids with the resolved indices gives values
    that [==] the resids asked for. *)
Lemma first_matches_take (l resids : list V) ks :
  Forall2 (fun item k => first_match l item 0 = Some k) resids ks ->
  exists out,
    np_take l ks = Ok out /\
    Forall2 (fun x item => py_eqb x item = true) out resids.
Proof.
  induction 1 as [|item k rest ks Hk _ (out & Hout & Heq)]; [by exists []|].
  apply first_match_lowest in Hk as [(Hk0 & (x & Hx & Hxi) & _) Hlt].
  exists (x :: out). unfold np_take in *. simpl.
  rewrite adjust_index_nonneg by lia. simpl. rewrite Hx. simpl.
  rewrite Hout. simpl. split; [done|]. by constructor.
Qed.

(** X8: moving atoms and asking where they are.  With the table of the
    specification, one resid per atom of the group, every resid present
    among the stored resids (fewer than 2^31 of them) and the atoms valid and
    pairwise distinct, [set_atoms] succeeds and a following [get_atoms] on
    the same group returns, atom by atom, a resid that [==] the one
    assigned. *)
Theorem Resids_set_atoms_get_atoms
    (ag : group) (resids l : list V) (ks : list nat) (self : attr V table) :
  values self = NdArray l ->
  Z.of_nat (length l) <= 2 ^ 31 ->
  Forall (has_match l) resids ->
  length resids = length (_ix ag) ->
  check_indices (length (AR (tt self))) (_ix ag) = Ok ks ->
  NoDup ks ->
  exists self' out,
    Resids.set_atoms ag resids self = (Ok PyNone, self') /\
    ResidueAttr.get_atoms ag self' = (Ok (PyArray out), self') /\
    Forall2 (fun x item => py_eqb x item = true) out resids.
Proof.
  intros Hvals Hsmall Hall Hlen Hks Hnd.
  destruct (first_matches_exist l resids Hall) as [rks Hrks].
  destruct (first_matches_take l resids rks Hrks) as (out & Hout & Heq).
  assert (length rks = length (_ix ag)) as Hrlen.
  { apply Forall2_length in Hrks. lia. }
  destruct (np_put_take (AR (tt self)) (_ix ag) rks ks Hrlen
              (first_matches_fit l resids rks _ Hsmall Hrks) Hks Hnd)
    as (ar & Hput & _ & Htake).
  exists (with_tt {| AR := ar; RS := RS (tt self) |} self), out.
  split; [|split; [|done]].
  - unfold Resids.set_atoms, bind, get, lift. simpl.
    rewrite Hvals, (resindexes_Ok l resids rks)
      by (done || rewrite length_replicate; unfold group_len; simpl; lia).
    simpl. rewrite (first_matches_int32 l resids rks Hsmall Hrks).
    rewrite drop_ge, app_nil_r
      by (rewrite length_replicate; unfold group_len; lia).
    by rewrite Hput.
  - unfold ResidueAttr.get_atoms, bind, get, lift, ret. simpl.
    rewrite Htake. simpl. rewrite Hvals. simpl. by rewrite Hout.
Qed.

(** X15: every atom of a residue reports the value of that residue.  With the
    table of the specification, reading a residue attribute for the atoms of
    residue [r] returns the value stored for [r], once per atom. *)
Theorem residue_value_seen_from_its_atoms
    (r : Z) (x : V) (a : list V) (self : attr V table) :
  values self = NdArray a ->
  0 <= r ->
  a !! Z.to_nat r = Some x ->
  ResidueAttr.get_atoms (group_of "atom" (atoms_of_residue (tt self) r)) self
  = (Ok (PyArray (replicate (length (atoms_of_residue (tt self) r)) x)),
     self).
Proof.
  intros Hvals Hr Hx.
  unfold ResidueAttr.get_atoms, bind, get, lift, ret. simpl.
  unfold atoms_of_residue.
  pose proof (np_take_positions [] (AR (tt self)) r) as Hres.
  change (Z.of_nat (length (@nil Z))) with 0 in Hres. simpl in Hres.
  rewrite Hres. simpl. rewrite Hvals. simpl.
  assert (forall n, np_take a (replicate n r) = Ok (replicate n x)) as ->;
    [|done].
  assert (Z.to_nat r < length a)%nat by (by eapply lookup_lt_Some).
  induction n as [|n IH]; [done|]. unfold np_take in *. simpl.
  rewrite adjust_index_nonneg by lia. simpl. rewrite Hx. simpl.
  by rewrite IH.
Qed.

End ResidsOnTable.

(** ** More on the adjacency map *)

(** X9: the orientation test is a canonical form.  Orienting twice is
    orienting once; a tuple and its reverse get the same orientation when
    their end atoms differ; and a tuple whose first and last atom coincide
    is kept as it is written (so it and its reverse stay two records). *)
Theorem orient_canonical (b b' : chain) :
  orient b = Ok b' ->
  orient b' = Ok b' /\
  (head b <> last b -> orient (reverse b) = Ok b') /\
  (head b = last b -> b' = b).
Proof.
  intros (f & l & Hf & Hl & ->)%orient_Ok.
  destruct (f <? l) eqn:Hfl.
  - apply Z.ltb_lt in Hfl. repeat split.
    + apply orient_Ok. exists l, f. rewrite head_reverse, last_reverse.
      repeat split; [done..|]. by rewrite (proj2 (Z.ltb_ge l f)) by lia.
    + intros _. apply orient_Ok. exists l, f.
      rewrite head_reverse, last_reverse.
      repeat split; [done..|]. by rewrite (proj2 (Z.ltb_ge l f)) by lia.
    + rewrite Hf, Hl. intros [= ->]. lia.
  - apply Z.ltb_ge in Hfl. repeat split.
    + apply orient_Ok. exists f, l.
      repeat split; [done..|]. by rewrite (proj2 (Z.ltb_ge f l)) by lia.
    + intros Hne. apply orient_Ok. exists l, f.
      rewrite head_reverse, last_reverse. repeat split; [done..|].
      assert (l < f) by (rewrite Hf, Hl in Hne; assert (f <> l) by congruence;
                         lia).
      by rewrite (proj2 (Z.ltb_lt l f)), reverse_involutive by lia.
Qed.

Lemma orient_canonical_witness :
  orient [8; 10; 4] = Ok [8; 10; 4] /\
  (head [4; 10; 8] <> last [4; 10; 8] ->
   orient (reverse [4; 10; 8]) = Ok [8; 10; 4]) /\
  (head [4; 10; 8] = last [4; 10; 8] -> [8; 10; 4] = [4; 10; 8]).
Proof. apply (orient_canonical [4; 10; 8] [8; 10; 4]). reflexivity. Defined.

Lemma build_empty_tuple (vals : list chain) bd :
  [] ∈ vals -> build vals bd = Raise IndexError.
Proof.
  revert bd. induction vals as [|b vals IH]; intros bd Hin.
  - by apply elem_of_nil in Hin.
  - simpl. destruct (decide (b = [])) as [->|Hb]; [done|].
    destruct (orient_total b Hb) as [b' ->]. simpl. apply IH.
    apply elem_of_cons in Hin as [?|?]; [congruence|done].
Qed.

Lemma chain_leb_total (x y : chain) :
  chain_leb x y = true \/ chain_leb y x = true.
Proof.
  revert y. induction x as [|a x IH]; intros [|b y]; simpl; auto.
  destruct (a <? b) eqn:Hab; [by left|].
  destruct (b <? a) eqn:Hba; [by right|]. apply IH.
Qed.

#[export] Instance chain_le_total : Total chain_le.
Proof. intros x y. apply chain_leb_total. Qed.

Lemma bonds_of_held bd a t : t ∈ bonds_of bd a <-> held bd a t.
Proof.
  unfold bonds_of, held. destruct (bd !! a) as [bonds|]; simpl.
  - split; [eauto|]. by intros (? & [= <-] & ?).
  - split; [by intros ?%elem_of_nil|]. by intros (? & [=] & _).
Qed.

Lemma bonds_of_touch bd a a' : bonds_of (touch bd a) a' = bonds_of bd a'.
Proof.
  unfold bonds_of, touch. destruct (bd !! a) eqn:Ha; [done|].
  destruct (decide (a = a')) as [<-|Hne].
  - by rewrite lookup_insert_eq, Ha.
  - by rewrite lookup_insert_ne.
Qed.

Lemma dom_touch bd a : dom (touch bd a) = {[a]} ∪ dom bd.
Proof.
  unfold touch. destruct (bd !! a) eqn:Ha; [|apply dom_insert_L].
  assert (a ∈ dom bd) by (apply elem_of_dom; eauto). set_solver.
Qed.

Lemma bonds_of_touch_all bd ix a :
  bonds_of (touch_all bd ix) a = bonds_of bd a.
Proof.
  unfold touch_all. revert bd. induction ix as [|i ix IH]; intros bd; simpl;
    [done|]. by rewrite IH, bonds_of_touch.
Qed.

Lemma dom_touch_all bd ix : dom (touch_all bd ix) = list_to_set ix ∪ dom bd.
Proof.
  unfold touch_all. revert bd. induction ix as [|i ix IH]; intros bd; simpl.
  - set_solver.
  - rewrite IH, dom_touch. set_solver.
Qed.

(** Asking again for atoms that are keys already changes nothing. *)
Lemma touch_all_known bd ix :
  Forall (fun a => a ∈ dom bd) ix -> touch_all bd ix = bd.
Proof.
  unfold touch_all. induction 1 as [|a ix Ha _ IH]; simpl; [done|].
  apply elem_of_dom in Ha as [bonds Ha]. unfold touch at 2. by rewrite Ha.
Qed.

Lemma bonds_touching_touch_all bd ix ix' :
  bonds_touching (touch_all bd ix') ix = bonds_touching bd ix.
Proof.
  unfold bonds_touching. do 3 f_equal.
  apply list_fmap_ext. intros _ a _. apply bonds_of_touch_all.
Qed.

Section AdjacencyReads.
Context {T : Type} `{!TransTable T}.

Lemma with_cache_same (self : attr chain T) bd :
  _cache self !! "bd" = Some bd ->
  with_cache (<["bd" := bd]> (_cache self)) self = self.
Proof.
  intros Hc. rewrite insert_id by done. by destruct self.
Qed.

Lemma bondDict_getitem_cached (self : attr chain T) bd a :
  _cache self !! "bd" = Some bd ->
  Bonds._bondDict_getitem a self
  = (Ok (bonds_of bd a),
     with_cache (<["bd" := touch bd a]> (_cache self)) self).
Proof.
  intros Hc. unfold Bonds._bondDict_getitem, bind.
  rewrite (bondDict_cached self bd Hc). unfold bonds_of, touch.
  destruct (bd !! a); simpl; [|done]. by rewrite with_cache_same.
Qed.

Lemma mapM_getitem_cached (self : attr chain T) bd ix :
  _cache self !! "bd" = Some bd ->
  mapM Bonds._bondDict_getitem ix self
  = (Ok (bonds_of bd <$> ix),
     with_cache (<["bd" := touch_all bd ix]> (_cache self)) self).
Proof.
  revert self bd. induction ix as [|a ix IH]; intros self bd Hc.
  - simpl. unfold ret. by rewrite with_cache_same.
  - simpl. unfold bind. rewrite (bondDict_getitem_cached self bd a Hc).
    rewrite (IH _ (touch bd a)) by (simpl; apply lookup_insert_eq).
    unfold ret. simpl. rewrite insert_insert_eq. f_equal. f_equal. f_equal.
    apply list_fmap_ext. intros _ a' _. apply bonds_of_touch.
Qed.

(** [get_atoms] once the map is cached. *)
Lemma get_atoms_cached (sing : string) (ag : group) (self : attr chain T) bd :
  _cache self !! "bd" = Some bd ->
  Bonds.get_atoms sing ag self
  = (match values self, concat (bonds_of bd <$> _ix ag) with
     | NdArray _, _ :: _ => Raise TypeError
     | _, _ =>
         (let? bond_idx := np_array (bonds_touching bd (_ix ag)) in
          Ok (TopologyGroup bond_idx (drop_last sing)))%res
     end,
     with_cache (<["bd" := touch_all bd (_ix ag)]> (_cache self)) self).
Proof.
  intros Hc. unfold Bonds.get_atoms, bind.
  rewrite (mapM_getitem_cached self bd (_ix ag) Hc). unfold get. simpl.
  unfold bonds_touching, lift, ret.
  destruct (values self), (concat _); simpl; try done;
    by destruct (np_array _).
Qed.

(** The first access builds the map; from there on the reads are those of
    the cached map. *)
Lemma mapM_getitem_first (self : attr chain T) bd a ix :
  Bonds._bondDict self
    = (Ok bd, with_cache (<["bd" := bd]> (_cache self)) self) ->
  mapM Bonds._bondDict_getitem (a :: ix) self
  = mapM Bonds._bondDict_getitem (a :: ix)
      (with_cache (<["bd" := bd]> (_cache self)) self).
Proof.
  intros Hbuild. simpl. unfold bind at 1 3.
  assert (Bonds._bondDict_getitem a self
          = Bonds._bondDict_getitem a
              (with_cache (<["bd" := bd]> (_cache self)) self)) as ->; [|done].
  unfold Bonds._bondDict_getitem, bind. rewrite Hbuild.
  by rewrite (bondDict_cached _ bd) by (simpl; apply lookup_insert_eq).
Qed.

Lemma get_atoms_first (sing : string) (ag : group) (self : attr chain T) bd :
  _ix ag <> [] ->
  Bonds._bondDict self
    = (Ok bd, with_cache (<["bd" := bd]> (_cache self)) self) ->
  Bonds.get_atoms sing ag self
  = Bonds.get_atoms sing ag (with_cache (<["bd" := bd]> (_cache self)) self).
Proof.
  intros Hix Hbuild. unfold Bonds.get_atoms, bind at 1 3.
  destruct (_ix ag) as [|a ix]; [done|].
  by rewrite (mapM_getitem_first self bd a ix Hbuild).
Qed.

End AdjacencyReads.

Lemma elem_of_concat_list {A} (x : A) (ls : list (list A)) :
  x ∈ concat ls <-> exists l, x ∈ l /\ l ∈ ls.
Proof.
  induction ls as [|l ls IH]; simpl.
  - split; [by intros ?%elem_of_nil|]. by intros (? & _ & ?%elem_of_nil).
  - rewrite elem_of_app, IH. split.
    + intros [?|(l' & ? & ?)].
      * exists l. split; [done|apply list_elem_of_here].
      * exists l'. split; [done|by apply list_elem_of_further].
    + intros (l' & Hx & [->|?]%elem_of_cons); [by left|right; eauto].
Qed.

Lemma np_array_Ok (l : list chain) : one_length l -> np_array l = Ok l.
Proof.
  intros [w Hw]. destruct l as [|b rest]; [done|]. simpl.
  apply Forall_cons in Hw as [<- Hw].
  replace (forallb _ rest) with true; [done|]. symmetry.
  apply forallb_forall. intros b' Hb'%list_elem_of_In.
  apply bool_decide_eq_true. by apply (proj1 (Forall_forall _ _) Hw).
Qed.

Lemma orient_length (b t : chain) : orient b = Ok t -> length t = length b.
Proof.
  intros (x & y & _ & _ & ->)%orient_Ok.
  destruct (x <? y); [apply length_reverse|done].
Qed.

(** The tuples found in a map built from tuples of one length have that
    length. *)
Lemma bonds_touching_one_length bd ix (vals : list chain) :
  (forall a t, held bd a t -> exists b, b ∈ vals /\ orient b = Ok t) ->
  one_length vals -> one_length (bonds_touching bd ix).
Proof.
  intros Hheld [w Hw]. exists w. apply Forall_forall. intros t.
  unfold bonds_touching.
  rewrite merge_sort_Permutation, elem_of_remove_dups.
  intros (bonds & Ht & Hb)%elem_of_concat_list.
  apply list_elem_of_fmap in Hb as (a & -> & _).
  apply bonds_of_held, Hheld in Ht as (b & Hb & Ho).
  rewrite (orient_length b t Ho). by apply (proj1 (Forall_forall _ _) Hw).
Qed.

Section AdjacencyTheorems.
Context {T : Type} `{!TransTable T}.

(** X10: an empty tuple among the stored tuples breaks the build.  On first
    access the map cannot be built: [_bondDict] and [len()] raise
    [IndexError], so does [get_atoms] for any non-empty group, and nothing
    is cached. *)
Theorem empty_tuple_breaks_build
    (sing : string) (ag : group) (self : attr chain T) :
  [] ∈ items (values self) ->
  _cache self !! "bd" = None ->
  _ix ag <> [] ->
  Bonds._bondDict self = (Raise IndexError, self) /\
  Bonds.__len__ self = (Raise IndexError, self) /\
  Bonds.get_atoms sing ag self = (Raise IndexError, self).
Proof.
  intros Hin Hc Hix.
  assert (Bonds._bondDict self = (Raise IndexError, self)) as Hbd.
  { unfold Bonds._bondDict, cached.
    by rewrite Hc, (build_empty_tuple _ _ Hin). }
  split; [done|]. split.
  - unfold Bonds.__len__, bind. by rewrite Hbd.
  - unfold Bonds.get_atoms, bind at 1.
    destruct (_ix ag) as [|a ix]; [done|]. simpl. unfold bind at 1.
    unfold Bonds._bondDict_getitem at 1, bind at 1. by rewrite Hbd.
Qed.

(** X11: what [get_atoms] returns.  On a connectivity attribute holding a
    list of non-empty tuples of one length whose map is not built yet,
    [get_atoms] returns a group of exactly the oriented stored tuples that
    contain at least one atom of the atom group, each once, in ascending
    tuple order, labelled with the class's [singular] minus its last letter;
    [values] and the translation table are as before. *)
Theorem get_atoms_returns_touching_bonds
    (sing : string) (ag : group) (vals : list chain) (self : attr chain T) :
  values self = PyList vals ->
  _cache self !! "bd" = None ->
  Forall (fun b => b <> []) vals ->
  one_length vals ->
  exists bonds self',
    Bonds.get_atoms sing ag self
      = (Ok (TopologyGroup bonds (drop_last sing)), self') /\
    (forall t, t ∈ bonds <->
       exists b a, b ∈ vals /\ orient b = Ok t /\ a ∈ _ix ag /\ a ∈ t) /\
    NoDup bonds /\ Sorted chain_le bonds /\
    values self' = values self /\ tt self' = tt self.
Proof.
  intros Hvals Hc Hne Hone.
  destruct (decide (_ix ag = [])) as [Hix|Hix].
  { exists [], self. unfold Bonds.get_atoms, bind, get, ret, lift.
    rewrite Hix. simpl. rewrite Hvals. simpl.
    repeat split; try done; try constructor.
    - by intros ?%elem_of_nil.
    - by intros (? & ? & _ & _ & ?%elem_of_nil & _). }
  destruct (bondDict_first_access self) as (bd & Hbd & Hheld & _);
    [done|by rewrite Hvals|].
  rewrite Hvals in Hheld. simpl in Hheld.
  rewrite (get_atoms_first sing ag self bd Hix Hbd).
  rewrite (get_atoms_cached sing ag _ bd) by (simpl; apply lookup_insert_eq).
  simpl. rewrite Hvals.
  rewrite (np_array_Ok (bonds_touching bd (_ix ag))).
  2: { apply (bonds_touching_one_length bd (_ix ag) vals); [|done].
       intros a t (b & ? & ? & _)%Hheld. eauto. }
  simpl.
  eexists _, _. split; [done|]. repeat split; try done.
  - unfold bonds_touching. rewrite merge_sort_Permutation.
    rewrite elem_of_remove_dups. intros Ht.
    apply elem_of_concat_list in Ht as (bonds & Ht & Hb).
    apply list_elem_of_fmap in Hb as (a & -> & Ha).
    apply bonds_of_held, Hheld in Ht as (b & Hb & Ho & Hat). eauto 10.
  - intros (b & a & Hb & Ho & Ha & Hat). unfold bonds_touching.
    rewrite merge_sort_Permutation, elem_of_remove_dups.
    apply elem_of_concat_list. exists (bonds_of bd a). split.
    + apply bonds_of_held, Hheld. eauto.
    + apply list_elem_of_fmap. eauto.
  - unfold bonds_touching. rewrite merge_sort_Permutation.
    apply NoDup_remove_dups.
  - apply (Sorted_merge_sort chain_le).
Qed.


(** X13: asking twice.  If [get_atoms] returns, the same call made right
    after it returns the same group and changes nothing any more. *)
Theorem get_atoms_twice
    (sing : string) (ag : group) (r : pyobj chain)
    (self self' : attr chain T) :
  Bonds.get_atoms sing ag self = (Ok r, self') ->
  Bonds.get_atoms sing ag self' = (Ok r, self').
Proof.
  destruct (decide (_ix ag = [])) as [Hix|Hix].
  { unfold Bonds.get_atoms, bind, get, ret. rewrite Hix. simpl.
    destruct (values self) eqn:Hv; intros [= <- <-]; by rewrite Hv. }
  assert (forall (s : attr chain T) bd,
            _cache s !! "bd" = Some bd ->
            Bonds.get_atoms sing ag s = (Ok r, self') ->
            Bonds.get_atoms sing ag self' = (Ok r, self')) as Hcached.
  { intros s bd Hs. rewrite (get_atoms_cached sing ag s bd Hs).
    intros [= Hr <-].
    rewrite (get_atoms_cached sing ag _ (touch_all bd (_ix ag)))
      by (simpl; apply lookup_insert_eq).
    simpl. rewrite insert_insert_eq, bonds_touching_touch_all.
    rewrite (touch_all_known (touch_all bd (_ix ag)) (_ix ag)).
    2: { apply Forall_forall. intros a Ha. rewrite dom_touch_all.
         apply elem_of_union_l, elem_of_list_to_set, Ha. }
    f_equal. rewrite <- Hr.
    assert (bonds_of (touch_all bd (_ix ag)) <$> _ix ag
            = bonds_of bd <$> _ix ag) as ->; [|done].
    apply list_fmap_ext. intros _ a _. apply bonds_of_touch_all. }
  destruct (_cache self !! "bd") as [bd|] eqn:Hc; [by apply (Hcached self bd)|].
  destruct (Bonds._bondDict self) as [[bd|e] s0] eqn:Hbd.
  - assert (s0 = with_cache (<["bd" := bd]> (_cache self)) self) as ->.
    { unfold Bonds._bondDict, cached in Hbd. rewrite Hc in Hbd.
      destruct (build _ _); by simplify_eq. }
    rewrite (get_atoms_first sing ag self bd Hix Hbd).
    apply (Hcached _ bd). simpl. apply lookup_insert_eq.
  - unfold Bonds.get_atoms, bind at 1.
    destruct (_ix ag) as [|a ix]; [done|]. simpl. unfold bind at 1.
    unfold Bonds._bondDict_getitem at 1, bind at 1. rewrite Hbd. discriminate.
Qed.

(** X14: the map is never rebuilt.  Once the map is cached, a successful
    [set_atoms] on the connectivity attribute (the handler is the one of
    [AtomAttr]) changes the stored tuples, but the map that [_bondDict]
    hands out has the keys it had before the write, and [len()] is their
    number as before. *)
Theorem cached_keys_survive_write
    (ag : group) (v : list chain) (r : pyobj chain)
    (bd : gmap Z (list chain)) (self self' : attr chain T) :
  _cache self !! "bd" = Some bd ->
  m_set_atoms (vtable_of (V:=Z) Bonds) ag v self = (Ok r, self') ->
  (exists bd', Bonds._bondDict self' = (Ok bd', self') /\ dom bd' = dom bd) /\
  Bonds.__len__ self' = (Ok (size bd), self') /\
  exists a', seq_setitem (values self) (_ix ag) v = Ok a' /\ values self' = a'.
Proof.
  intros Hc. simpl.
  unfold AtomAttr.set_atoms, bind, get, lift, ret, modify.
  destruct (seq_setitem _ _ _) as [a'|e]; simpl; [|discriminate].
  intros [= _ <-].
  assert (_cache (with_values a' self) !! "bd" = Some bd) as Hc' by done.
  split; [exists bd; split; [by apply bondDict_cached|done]|].
  split; [by apply len_of_cached_map|]. by exists a'.
Qed.

End AdjacencyTheorems.

(** ** The array made by [np.empty] *)

Lemma sum_rows_agree {V} `{!PyScalar V} (vals : pyseq V) rows i
    (out1 out2 : list float) :
  length out1 = length out2 ->
  take i out1 = take i out2 ->
  (i + length rows = length out1)%nat ->
  sum_rows vals i rows out1 = sum_rows vals i rows out2.
Proof.
  revert i out1 out2.
  induction rows as [|row rows IH]; intros i out1 out2 Hlen Htake Hi; simpl.
  - simpl in Hi. rewrite Nat.add_0_r in Hi.
    rewrite !take_ge in Htake by lia. by rewrite Htake.
  - simpl in Hi. destruct (seq_getitem vals row) as [picked|e]; simpl; [|done].
    destruct (np_sum picked) as [total|e]; simpl; [|done].
    unfold store_cell. rewrite <- Hlen.
    rewrite !decide_True by lia. simpl. apply IH.
    + by rewrite !length_insert.
    + rewrite !(take_S_r _ i total) by (apply list_lookup_insert_eq; lia).
      rewrite !take_insert_ge by lia. by rewrite Htake.
    + rewrite length_insert. lia.
Qed.

Section NoLeak.
Context {V T : Type} `{!PyScalar V} `{!Dtype V} `{!TransTable T}.

(** X16: no uninitialised cell leaks.  When the translation table answers
    with one row per index of the group, the outcome of an aggregating read
    of [Masses] or [Charges] does not depend on what [np.empty] left in the
    result array: the result, or the exception, is the same for any two
    initial contents. *)
Theorem aggregating_reads_ignore_np_empty
    (U1 U2 : Uninitialised) (l : lvl) (g : group) (rows : list (list Z))
    (self : attr V T) :
  l <> Atom ->
  grouped l (tt self) (_ix g) = Ok rows ->
  length rows = length (_ix g) ->
  getter (vtable_of (H:=U1) Masses) l g self
    = getter (vtable_of (H:=U2) Masses) l g self /\
  getter (vtable_of (H:=U1) Charges) l g self
    = getter (vtable_of (H:=U2) Charges) l g self.
Proof.
  intros Hl Hrows Hlen.
  assert (sum_rows (values self) 0 rows (@np_empty U1 (group_len g))
          = sum_rows (values self) 0 rows (@np_empty U2 (group_len g))) as Heq.
  { apply sum_rows_agree; [by rewrite !np_empty_length|done|].
    rewrite np_empty_length. unfold group_len. simpl. lia. }
  destruct l; [done| |]; simpl in *;
    unfold Masses.get_residues, Charges.get_residues,
           Masses.get_segments, Charges.get_segments, bind, get, lift, ret;
    change (elem V Masses) with V; change (elem V Charges) with V;
    rewrite Hrows; simpl; by rewrite Heq.
Qed.

End NoLeak.

(** ** Witnesses of the further properties *)

Lemma native_roundtrip_witness :
  let rg := group_of "residue" [2; 0] in
  exists self',
    TopologyAttr.__setitem__ (vtable_of Resids) rg [31; 11] resids_10_20_30
      = (Ok PyNone, self') /\
    TopologyAttr.__getitem__ (vtable_of Resids) rg self'
      = (Ok (PyArray [31; 11]), self').
Proof.
  intros rg.
  apply (native_setitem_getitem_roundtrip (V:=Z) Resids Residue rg [31; 11]
           [10; 20; 30] [2; 0]%nat resids_10_20_30); try reflexivity.
  - repeat constructor.
  - apply (bool_decide_unpack _). reflexivity.
Defined.

Lemma native_write_frame_witness :
  let rg := group_of "residue" [2; 0] in
  let self' := with_values (NdArray [11; 20; 31]) resids_10_20_30 in
  exists a' ks,
    values self' = NdArray a' /\
    length a' = length [10; 20; 30] /\
    check_indices (length [10; 20; 30]) (_ix rg) = Ok ks /\
    (forall k, k ∉ ks -> a' !! k = [10; 20; 30] !! k) /\
    _cache self' = _cache resids_10_20_30 /\
    tt self' = tt resids_10_20_30 /\
    m_len (vtable_of (V:=Z) Resids) self' = (Ok (length [10; 20; 30]), self').
Proof.
  intros rg self'.
  apply (native_write_frame (V:=Z) Resids Residue rg [31; 11] [10; 20; 30]
           PyNone resids_10_20_30 self'); reflexivity.
Defined.

Lemma failed_setitem_witness :
  let rg := group_of "residue" [5] in
  TopologyAttr.__setitem__ (vtable_of Resids) rg [7] resids_10_20_30
    = (Raise IndexError, resids_10_20_30) /\
  resids_10_20_30 = resids_10_20_30.
Proof.
  intros rg. split; [reflexivity|].
  apply (failed_setitem_changes_nothing (V:=Z) Resids rg [7] IndexError
           resids_10_20_30 resids_10_20_30).
  - intros [_ Hl]. discriminate Hl.
  - reflexivity.
Defined.

Lemma native_index_out_of_range_witness :
  let ag := group_of "atom" [0; 4] in
  let v := [2%float; 3%float] in
  TopologyAttr.__getitem__ (vtable_of Masses) ag masses_water_ion
    = (Raise IndexError, masses_water_ion) /\
  TopologyAttr.__setitem__ (vtable_of Masses) ag v masses_water_ion
    = (Raise IndexError, masses_water_ion).
Proof.
  intros ag v.
  destruct (native_index_out_of_range (V:=float) Masses Atom ag v
              [1%float; 1%float; 16%float; 1%float] masses_water_ion)
    as [Hget Hset]; try reflexivity.
  - intros Hr. apply Forall_cons in Hr as [_ Hr].
    apply Forall_cons in Hr as [Hr _]. simpl in Hr. lia.
  - split; [exact Hget|]. apply Hset; [repeat constructor|by left].
Defined.

Lemma native_broadcast_witness :
  let ag := group_of "atom" [1; 1; -1] in
  exists self',
    TopologyAttr.__setitem__ (vtable_of Masses) ag [12%float] masses_water_ion
      = (Ok PyNone, self') /\
    TopologyAttr.__getitem__ (vtable_of Masses) ag self'
      = (Ok (PyArray (replicate (length (_ix ag)) 12%float)), self').
Proof.
  intros ag.
  apply (native_broadcast_write (V:=float) Masses Atom ag 12%float
           [1%float; 1%float; 16%float; 1%float] masses_water_ion);
    try reflexivity.
  repeat constructor; simpl; lia.
Defined.

Lemma getitem_changes_nothing_witness :
  (TopologyAttr.__getitem__ (vtable_of (V:=Z) Bonds)
     (group_of "residue" [0]) bonds_list).2 = bonds_list.
Proof.
  apply (getitem_changes_nothing (V:=Z) Bonds (group_of "residue" [0])
           bonds_list).
  right. discriminate.
Defined.

Lemma Resids_set_atoms_get_atoms_witness :
  let ag := group_of "atom" [0; 2] in
  exists self' out,
    Resids.set_atoms ag [30; 10] resids_10_20_30 = (Ok PyNone, self') /\
    ResidueAttr.get_atoms ag self' = (Ok (PyArray out), self') /\
    Forall2 (fun x item => py_eqb x item = true) out [30; 10].
Proof.
  intros ag.
  apply (Resids_set_atoms_get_atoms (V:=Z) ag [30; 10] [10; 20; 30]
           [0; 2]%nat resids_10_20_30); try reflexivity.
  - simpl. lia.
  - repeat constructor.
    + exists 30. split; [|reflexivity].
      apply list_elem_of_further, list_elem_of_further, list_elem_of_here.
    + exists 10. split; [|reflexivity]. apply list_elem_of_here.
  - apply (bool_decide_unpack _). reflexivity.
Defined.

Lemma residue_value_witness :
  ResidueAttr.get_atoms
    (group_of "atom" (atoms_of_residue (tt resids_water_ion) 0))
    resids_water_ion
  = (Ok (PyArray (replicate
                    (length (atoms_of_residue (tt resids_water_ion) 0)) 101)),
     resids_water_ion).
Proof.
  apply (residue_value_seen_from_its_atoms (V:=Z) 0 101 [101; 102]
           resids_water_ion); [reflexivity | lia | reflexivity].
Defined.

Lemma empty_tuple_witness :
  Bonds._bondDict broken_bonds = (Raise IndexError, broken_bonds) /\
  Bonds.__len__ broken_bonds = (Raise IndexError, broken_bonds) /\
  Bonds.get_atoms "bonds" (group_of "atom" [0]) broken_bonds
    = (Raise IndexError, broken_bonds).
Proof.
  apply (empty_tuple_breaks_build "bonds" (group_of "atom" [0]) broken_bonds).
  - apply list_elem_of_further, list_elem_of_here.
  - reflexivity.
  - discriminate.
Defined.

Lemma get_atoms_returns_witness :
  let ag := group_of "atom" [2; 7] in
  exists bonds self',
    Bonds.get_atoms "bonds" ag bonds_list
      = (Ok (TopologyGroup bonds (drop_last "bonds")), self') /\
    (forall t, t ∈ bonds <->
       exists b a, b ∈ [[0; 2]; [1; 2]; [2; 3]] /\ orient b = Ok t /\
                   a ∈ _ix ag /\ a ∈ t) /\
    NoDup bonds /\ Sorted chain_le bonds /\
    values self' = values bonds_list /\ tt self' = tt bonds_list.
Proof.
  intros ag.
  apply (get_atoms_returns_touching_bonds "bonds" ag
           [[0; 2]; [1; 2]; [2; 3]] bonds_list); try reflexivity.
  - repeat constructor; discriminate.
  - exists 2%nat. repeat constructor.
Defined.


Lemma get_atoms_twice_witness :
  let ag := group_of "atom" [0; 5] in
  let self' := (Bonds.get_atoms "bonds" ag one_bond).2 in
  Bonds.get_atoms "bonds" ag self'
    = (Ok (TopologyGroup [[1; 0]] "bond"), self').
Proof.
  intros ag self'.
  apply (get_atoms_twice "bonds" ag (TopologyGroup [[1; 0]] "bond")
           one_bond self').
  vm_compute. reflexivity.
Defined.

Lemma cached_keys_survive_witness :
  let self := (Bonds.__len__ bonds_array).2 in
  let bd := default ∅ (_cache self !! "bd") in
  let ag := group_of "atom" [0] in
  let self' := (m_set_atoms (vtable_of (V:=Z) Bonds) ag [[7; 9]] self).2 in
  (exists bd', Bonds._bondDict self' = (Ok bd', self') /\ dom bd' = dom bd) /\
  Bonds.__len__ self' = (Ok (size bd), self') /\
  exists a',
    seq_setitem (values self) (_ix ag) [[7; 9]] = Ok a' /\ values self' = a'.
Proof.
  intros self bd ag self'.
  apply (cached_keys_survive_write ag [[7; 9]] PyNone bd self self').
  - vm_compute. reflexivity.
  - vm_compute. reflexivity.
Defined.

Lemma aggregating_reads_ignore_np_empty_witness :
  let rg := group_of "residue" [0; 1] in
  getter (vtable_of (H:=zero_filled) Masses) Residue rg masses_water_ion
    = getter (vtable_of (H:=one_filled) Masses) Residue rg masses_water_ion /\
  getter (vtable_of (H:=zero_filled) Charges) Residue rg masses_water_ion
    = getter (vtable_of (H:=one_filled) Charges) Residue rg masses_water_ion.
Proof.
  intros rg.
  apply (aggregating_reads_ignore_np_empty (V:=float) zero_filled one_filled
           Residue rg [[0; 1; 2]; [3]] masses_water_ion);
    [discriminate | reflexivity | reflexivity].
Defined.
